(** * ba-agent: the response normaliser of [server/api.js] and the diagram
      resolver of [src/components/PlantUMLViewer.jsx]

    A shallow embedding of the two pieces of the repository that do real work
    on text:

    - [repairJSON] and the staged parse of [getGroqCompletion]
      (direct parse, repair, brace extraction), together with the
      [/api/breakdown-tasks] route that consumes its result;
    - the effect of [PlantUMLViewer] (validate, delimit, encode, build the
      URL, fall back to [simplifyUml]).

    JavaScript strings are modelled by [string]: sequences of 8-bit code
    units, read as the code points U+0000 to U+00FF.  The regular expressions
    of the source are kept as data ([Regex.regex]) and run by a backtracking
    matcher that follows the ECMAScript matching order (leftmost match,
    greedy quantifiers, alternatives tried left to right).  The built-ins
    [JSON.parse] and [JSON.stringify] and the [plantuml-encoder] package are
    not code of the repository: the functions that call them take them as
    arguments; [Json.parse] and [Json.stringify] give a reference reading of
    the JSON grammar with which the examples are run. *)

From Stdlib Require Import Bool Arith Lia List Ascii String ZArith.
Import ListNotations.
Open Scope string_scope.
Open Scope nat_scope.

Set Implicit Arguments.
Set Warnings "-register-all".

(* ================================================================== *)
(** ** JavaScript string primitives *)
(* ================================================================== *)

Module JSStr.

(** The double quote, which no literal of this file contains. *)
Definition dq : ascii := "034"%char.
Definition nl : ascii := "010"%char.

(** [q s] is [s] with every apostrophe replaced by a double quote; it is
    is used to write texts that contain double quotes legibly. *)
Fixpoint q (s : string) : string :=
  match s with
  | EmptyString => EmptyString
  | String c t => String (if Ascii.eqb c "'" then dq else c) (q t)
  end.

(** WhiteSpace and LineTerminator code points below U+0100: TAB, LF, VT, FF,
    CR, SP and NBSP.  Both [String.prototype.trim] and the class [\s] use
    this set. *)
Definition is_space (c : ascii) : bool :=
  let n := nat_of_ascii c in
  ((9 <=? n) && (n <=? 13)) || (n =? 32) || (n =? 160).

Definition in_range (lo hi c : ascii) : bool :=
  (nat_of_ascii lo <=? nat_of_ascii c) && (nat_of_ascii c <=? nat_of_ascii hi).

Fixpoint trimStart (s : string) : string :=
  match s with
  | String c t => if is_space c then trimStart t else s
  | EmptyString => EmptyString
  end.

(** [trimEnd] keeps a character when it is not a space or when something
    that is kept follows it. *)
Fixpoint trimEnd (s : string) : string :=
  match s with
  | EmptyString => EmptyString
  | String c t =>
      match trimEnd t with
      | EmptyString => if is_space c then EmptyString else String c EmptyString
      | t' => String c t'
      end
  end.

Definition trim (s : string) : string := trimEnd (trimStart s).

(** Texts that start with the character [c]. *)
Definition head_is (c : ascii) (s : string) : bool :=
  match s with
  | String a _ => Ascii.eqb a c
  | EmptyString => false
  end.

(** Texts that do not start with white space. *)
Definition starts_clean (s : string) : bool :=
  match s with
  | String b _ => negb (is_space b)
  | EmptyString => true
  end.

(** Texts made of white space only. *)
Fixpoint all_space (s : string) : bool :=
  match s with
  | EmptyString => true
  | String c t => is_space c && all_space t
  end.

(** [s.includes(sub)] *)
Fixpoint includes (s sub : string) : bool :=
  String.prefix sub s ||
  match s with
  | EmptyString => false
  | String _ t => includes t sub
  end.

(** [s.indexOf(c)] for a one-character needle; [None] stands for -1. *)
Fixpoint indexOf (c : ascii) (s : string) : option nat :=
  match s with
  | EmptyString => None
  | String a t =>
      if Ascii.eqb a c then Some 0
      else match indexOf c t with Some i => Some (S i) | None => None end
  end.

(** [s.lastIndexOf(c)] *)
Fixpoint lastIndexOf (c : ascii) (s : string) : option nat :=
  match s with
  | EmptyString => None
  | String a t =>
      match lastIndexOf c t with
      | Some i => Some (S i)
      | None => if Ascii.eqb a c then Some 0 else None
      end
  end.

(** [s.slice(a, b)] for indices [0 <= a] and [0 <= b <= s.length]: empty
    when [b <= a]. *)
Definition slice (a b : nat) (s : string) : string := substring a (b - a) s.

(** [String.prototype.toLowerCase] on U+0000..U+00FF: the letters A-Z and
    U+00C0..U+00DE (but the multiplication sign U+00D7) move up by 32. *)
Definition lower_char (c : ascii) : ascii :=
  let n := nat_of_ascii c in
  if ((65 <=? n) && (n <=? 90)) ||
     ((192 <=? n) && (n <=? 222) && negb (n =? 215))
  then ascii_of_nat (n + 32) else c.

Fixpoint toLowerCase (s : string) : string :=
  match s with
  | EmptyString => EmptyString
  | String c t => String (lower_char c) (toLowerCase t)
  end.

(** Decimal rendering of a natural number, as [`${n}`] gives it. *)
Definition digit (n : nat) : ascii := ascii_of_nat (48 + n).

Fixpoint dec_go (fuel n : nat) (acc : string) : string :=
  match fuel with
  | 0 => acc
  | S f =>
      let acc' := String (digit (n mod 10)) acc in
      if n <? 10 then acc' else dec_go f (n / 10) acc'
  end.

Definition of_nat (n : nat) : string := dec_go (S n) n EmptyString.

End JSStr.

(* ================================================================== *)
(** ** Regular expressions: syntax and a backtracking matcher *)
(* ================================================================== *)

Module Regex.
Import JSStr.

(** Members of a character class. *)
Inductive citem : Type :=
| CChar (c : ascii)          (* a literal character *)
| CRange (lo hi : ascii)     (* [lo-hi] *)
| CSpace.                    (* [\s] *)

Definition in_item (c : ascii) (i : citem) : bool :=
  match i with
  | CChar a => Ascii.eqb c a
  | CRange lo hi => in_range lo hi c
  | CSpace => is_space c
  end.

Definition in_class (c : ascii) (items : list citem) : bool :=
  existsb (in_item c) items.

(** The fragment of the ECMAScript pattern language that the source uses. *)
Inductive regex : Type :=
| Lit (c : ascii)                 (* one literal character *)
| Cls (items : list citem)        (* [...] *)
| NCls (items : list citem)       (* [^...] *)
| Cat (r1 r2 : regex)             (* r1 r2 *)
| Alt (r1 r2 : regex)             (* r1|r2 *)
| Star (r : regex)                (* r*  (greedy) *)
| Plus (r : regex)                (* r+  (greedy) *)
| Opt (r : regex)                 (* r?  (greedy) *)
| Cap (n : nat) (r : regex)       (* (r), the n-th capturing group *)
| Eos.                            (* $ without the m flag *)

(** Captured groups: group number and captured text. *)
Definition caps : Type := list (nat * string).

Fixpoint cap_get (n : nat) (cs : caps) : option string :=
  match cs with
  | [] => None
  | (m, s) :: t => if Nat.eqb m n then Some s else cap_get n t
  end.

Definition cap_set (n : nat) (s : string) (cs : caps) : caps := (n, s) :: cs.

Definition cont : Type := string -> caps -> option (string * caps).

(** Greedy iteration: take one more [step] while it consumes input and the
    rest of the pattern then succeeds; otherwise go on with the continuation.
    An iteration that consumes nothing is rejected, as in ECMAScript. *)
Fixpoint star_loop (step : string -> caps -> cont -> option (string * caps))
    (k : cont) (fuel : nat) (s : string) (cs : caps) : option (string * caps) :=
  match fuel with
  | 0 => k s cs
  | S f =>
      match step s cs (fun s' cs' =>
              if String.length s' <? String.length s
              then star_loop step k f s' cs' else None) with
      | Some x => Some x
      | None => k s cs
      end
  end.

(** [run r s cs k]: match [r] at the head of [s], then continue with [k] on
    what is left; the first success in backtracking order is returned. *)
Fixpoint run (r : regex) (s : string) (cs : caps) (k : cont)
  : option (string * caps) :=
  match r with
  | Lit c =>
      match s with
      | String a t => if Ascii.eqb a c then k t cs else None
      | EmptyString => None
      end
  | Cls items =>
      match s with
      | String a t => if in_class a items then k t cs else None
      | EmptyString => None
      end
  | NCls items =>
      match s with
      | String a t => if in_class a items then None else k t cs
      | EmptyString => None
      end
  | Cat r1 r2 => run r1 s cs (fun s1 c1 => run r2 s1 c1 k)
  | Alt r1 r2 =>
      match run r1 s cs k with
      | Some x => Some x
      | None => run r2 s cs k
      end
  | Star r1 => star_loop (run r1) k (String.length s) s cs
  | Plus r1 =>
      run r1 s cs (fun s1 c1 => star_loop (run r1) k (String.length s1) s1 c1)
  | Opt r1 =>
      match run r1 s cs k with
      | Some x => Some x
      | None => k s cs
      end
  | Cap n r1 =>
      run r1 s cs (fun s1 c1 =>
        k s1 (cap_set n (substring 0 (String.length s - String.length s1) s) c1))
  | Eos =>
      match s with
      | EmptyString => k s cs
      | String _ _ => None
      end
  end.

(** The continuation that accepts. *)
Definition k_done : cont := fun s' cs' => Some (s', cs').

(** One match attempt at the head of [s]: the number of characters matched
    and the captures. *)
Definition exec_here (r : regex) (s : string) : option (nat * caps) :=
  match run r s [] k_done with
  | Some (s', cs') => Some (String.length s - String.length s', cs')
  | None => None
  end.

(** Replacement patterns: literal text and [$n]. *)
Inductive titem : Type :=
| TLit (s : string)
| TRef (n : nat).

Fixpoint subst (tpl : list titem) (cs : caps) : string :=
  match tpl with
  | [] => EmptyString
  | TLit s :: t => s ++ subst t cs
  | TRef n :: t =>
      match cap_get n cs with Some s => s | None => EmptyString end ++ subst t cs
  end.

(** [s.replace(/r/g, tpl)]: scan from the left; [skip] counts the characters
    of the current match that are still to be passed over.  After an empty
    match the scan advances by one character. *)
Fixpoint replace_go (r : regex) (tpl : list titem) (s : string) (skip : nat)
  : string :=
  match s with
  | EmptyString =>
      match skip, exec_here r EmptyString with
      | 0, Some (_, cs) => subst tpl cs
      | _, _ => EmptyString
      end
  | String c t =>
      match skip with
      | S n => replace_go r tpl t n
      | 0 =>
          match exec_here r s with
          | Some (0, cs) => subst tpl cs ++ String c (replace_go r tpl t 0)
          | Some (S n, cs) => subst tpl cs ++ replace_go r tpl t n
          | None => String c (replace_go r tpl t 0)
          end
      end
  end.

Definition replace_all (r : regex) (tpl : list titem) (s : string) : string :=
  replace_go r tpl s 0.

(** [s.match(/r/g)]: the matched substrings, in order of appearance
    (the empty list stands for [null]). *)
Fixpoint match_go (r : regex) (s : string) (skip : nat) : list string :=
  match s with
  | EmptyString =>
      match skip, exec_here r EmptyString with
      | 0, Some _ => [EmptyString]
      | _, _ => []
      end
  | String c t =>
      match skip with
      | S n => match_go r t n
      | 0 =>
          match exec_here r s with
          | Some (0, _) => EmptyString :: match_go r t 0
          | Some (S n, _) => substring 0 (S n) s :: match_go r t n
          | None => match_go r t 0
          end
      end
  end.

Definition match_all (r : regex) (s : string) : list string := match_go r s 0.

(** The words of a pattern, read as a language.  [$] is given the empty
    word: what [run] accepts is in the language, not the other way round. *)
Inductive matches : regex -> string -> Prop :=
| MLit c : matches (Lit c) (String c "")
| MCls items a : in_class a items = true -> matches (Cls items) (String a "")
| MNCls items a : in_class a items = false -> matches (NCls items) (String a "")
| MCat r1 r2 w1 w2 :
    matches r1 w1 -> matches r2 w2 -> matches (Cat r1 r2) (w1 ++ w2)
| MAltL r1 r2 w : matches r1 w -> matches (Alt r1 r2) w
| MAltR r1 r2 w : matches r2 w -> matches (Alt r1 r2) w
| MStarNil r : matches (Star r) ""
| MStarApp r w1 w2 :
    matches r w1 -> matches (Star r) w2 -> matches (Star r) (w1 ++ w2)
| MPlus r w1 w2 :
    matches r w1 -> matches (Star r) w2 -> matches (Plus r) (w1 ++ w2)
| MOptNil r : matches (Opt r) ""
| MOptOne r w : matches r w -> matches (Opt r) w
| MCap n r w : matches r w -> matches (Cap n r) w
| MEos : matches Eos "".

(** A matching step is sound for a pattern when what it accepts at the
    head of a text is a word of the pattern. *)
Definition sound (step : string -> caps -> cont -> option (string * caps))
    (r : regex) : Prop :=
  forall s cs k x, step s cs k = Some x ->
  exists w s' cs', s = w ++ s' /\ matches r w /\ k s' cs' = Some x.

(** [starts c r]: every word of [r] begins with the character [c]. *)
Fixpoint starts (c : ascii) (r : regex) : bool :=
  match r with
  | Lit a => Ascii.eqb a c
  | Cat r1 _ => starts c r1
  | Plus r1 => starts c r1
  | Cap _ r1 => starts c r1
  | _ => false
  end.

(** [seq r rs] is the concatenation [r rs1 ... rsn]; [lits s] the
    characters of a literal word. *)
Fixpoint seq (r : regex) (rs : list regex) : regex :=
  match rs with
  | [] => r
  | r' :: t => Cat r (seq r' t)
  end.

Fixpoint lits (s : string) : list regex :=
  match s with
  | EmptyString => []
  | String c t => Lit c :: lits t
  end.

(** [\s] *)
Definition Sp : regex := Cls [CSpace].

End Regex.

(* ================================================================== *)
(** ** JSON values, and a reference reader and printer *)
(* ================================================================== *)

Module Json.
Import JSStr.

(** The values [JSON.parse] can return.  A number is kept as the decimal
    [m * 10^e] its literal denotes (rounding to a double is not modelled);
    an object is its list of own properties in insertion order, with
    distinct keys. *)
Inductive json : Type :=
| JNull
| JBool (b : bool)
| JNumber (m e : Z)
| JString (s : string)
| JArray (items : list json)
| JObject (props : list (string * json)).

(** The outcome of [JSON.parse]: the value, or the message of the
    [SyntaxError] it throws. *)
Definition parsed : Type := (json + string)%type.

(** Property definition as [JSON.parse] does it: a repeated key overwrites
    the earlier value and keeps its place. *)
Fixpoint obj_set (k : string) (v : json) (l : list (string * json))
  : list (string * json) :=
  match l with
  | [] => [(k, v)]
  | (k', v') :: t =>
      if String.eqb k' k then (k', v) :: t else (k', v') :: obj_set k v t
  end.

Definition json_ws (c : ascii) : bool :=
  let n := nat_of_ascii c in
  (n =? 32) || (n =? 9) || (n =? 10) || (n =? 13).

Fixpoint skip_ws (s : string) : string :=
  match s with
  | String c t => if json_ws c then skip_ws t else s
  | EmptyString => EmptyString
  end.

Definition is_digit (c : ascii) : bool := in_range "0" "9" c.

Definition digit_val (c : ascii) : Z := Z.of_nat (nat_of_ascii c - 48).

(** A result is a value with the rest of the input, or the input left at
    the point of failure. *)
Definition res (A : Type) : Type := ((A * string) + string)%type.

(** [digits acc n s]: read decimal digits; the number read so far is [acc],
    [n] counts the digits. *)
Fixpoint digits (acc : Z) (n : nat) (s : string) : Z * nat * string :=
  match s with
  | String c t =>
      if is_digit c then digits (10 * acc + digit_val c)%Z (S n) t
      else (acc, n, s)
  | EmptyString => (acc, n, s)
  end.

(** Drop the trailing zeros of a mantissa. *)
Fixpoint norm_go (fuel : nat) (m e : Z) : Z * Z :=
  match fuel with
  | 0 => (m, e)
  | S f =>
      if (m =? 0)%Z then (0%Z, 0%Z)
      else if (m mod 10 =? 0)%Z then norm_go f (m / 10)%Z (e + 1)%Z
      else (m, e)
  end.

(** number ::= -? (0 | [1-9][0-9]* ) (.[0-9]+)? ([eE][+-]?[0-9]+)? *)
Definition pnumber (s : string) : res json :=
  let (neg, s0) :=
    match s with
    | String "-" t => (true, t)
    | _ => (false, s)
    end in
  let int_part : res Z :=
    match s0 with
    | String "0" t => inl (0%Z, t)
    | String c t =>
        if is_digit c then let '(m, _, r) := digits 0 0 s0 in inl (m, r)
        else inr s0
    | EmptyString => inr s0
    end in
  match int_part with
  | inr r => inr r
  | inl (m, s1) =>
      let frac : res (Z * Z) :=
        match s1 with
        | String "." t =>
            let '(m', n, r) := digits m 0 t in
            match n with
            | 0 => inr t
            | _ => inl ((m', (- Z.of_nat n)%Z), r)
            end
        | _ => inl ((m, 0%Z), s1)
        end in
      match frac with
      | inr r => inr r
      | inl ((m2, e2), s2) =>
          let expo : res Z :=
            match s2 with
            | String c t =>
                if Ascii.eqb c "e" || Ascii.eqb c "E" then
                  let (eneg, t') :=
                    match t with
                    | String "-" u => (true, u)
                    | String "+" u => (false, u)
                    | _ => (false, t)
                    end in
                  let '(x, n, r) := digits 0 0 t' in
                  match n with
                  | 0 => inr t'
                  | _ => inl ((if eneg then - x else x)%Z, r)
                  end
                else inl (0%Z, s2)
            | EmptyString => inl (0%Z, s2)
            end in
          match expo with
          | inr r => inr r
          | inl (x, s3) =>
              let (m3, e3) :=
                norm_go (String.length s) (if neg then - m2 else m2)%Z
                        (e2 + x)%Z in
              inl (JNumber m3 e3, s3)
          end
      end
  end.

Definition hex_val (c : ascii) : option nat :=
  let n := nat_of_ascii c in
  if is_digit c then Some (n - 48)
  else if in_range "a" "f" c then Some (n - 87)
  else if in_range "A" "F" c then Some (n - 55)
  else None.

(** The body of a string literal, after the opening quote.  An escape
    [\uXXXX] above U+00FF has no counterpart in [string] and is refused. *)
Fixpoint pstring (s : string) : res string :=
  match s with
  | EmptyString => inr s
  | String c t =>
      if Ascii.eqb c dq then inl (EmptyString, t)
      else if Ascii.eqb c "\" then
        match t with
        | String "u" (String h1 (String h2 (String h3 (String h4 t')))) =>
            match hex_val h1, hex_val h2, hex_val h3, hex_val h4 with
            | Some 0, Some 0, Some a, Some b =>
                match pstring t' with
                | inl (r, rest) => inl (String (ascii_of_nat (16 * a + b)) r, rest)
                | inr e => inr e
                end
            | _, _, _, _ => inr t
            end
        | String e t' =>
            let unesc : option ascii :=
              if Ascii.eqb e dq then Some dq
              else if Ascii.eqb e "\" then Some "\"%char
              else if Ascii.eqb e "/" then Some "/"%char
              else if Ascii.eqb e "b" then Some "008"%char
              else if Ascii.eqb e "f" then Some "012"%char
              else if Ascii.eqb e "n" then Some "010"%char
              else if Ascii.eqb e "r" then Some "013"%char
              else if Ascii.eqb e "t" then Some "009"%char
              else None in
            match unesc with
            | Some a =>
                match pstring t' with
                | inl (r, rest) => inl (String a r, rest)
                | inr x => inr x
                end
            | None => inr t
            end
        | EmptyString => inr t
        end
      else if nat_of_ascii c <? 32 then inr s
      else
        match pstring t with
        | inl (r, rest) => inl (String c r, rest)
        | inr e => inr e
        end
  end.

(** Expect the word [w] at the head of [s]. *)
Fixpoint pword (w s : string) : res unit :=
  match w with
  | EmptyString => inl (tt, s)
  | String a w' =>
      match s with
      | String c t => if Ascii.eqb a c then pword w' t else inr s
      | EmptyString => inr s
      end
  end.

(** Recursive descent.  [pvalue] reads one value, [pelems] the rest of an
    array after an element, [pmembers] the members of an object from a key
    on.  The fuel bounds the number of nested calls. *)
Fixpoint pvalue (fuel : nat) (s : string) : res json :=
  match fuel with
  | 0 => inr s
  | S f =>
      let s := skip_ws s in
      match s with
      | EmptyString => inr s
      | String c t =>
          if Ascii.eqb c "{" then
            match skip_ws t with
            | String "}" t' => inl (JObject [], t')
            | t' => pmembers f t' []
            end
          else if Ascii.eqb c "[" then
            match skip_ws t with
            | String "]" t' => inl (JArray [], t')
            | t' =>
                match pvalue f t' with
                | inl (v, r) => pelems f r [v]
                | inr e => inr e
                end
            end
          else if Ascii.eqb c dq then
            match pstring t with
            | inl (x, r) => inl (JString x, r)
            | inr e => inr e
            end
          else if Ascii.eqb c "t" then
            match pword "true" s with
            | inl (_, r) => inl (JBool true, r) | inr e => inr e end
          else if Ascii.eqb c "f" then
            match pword "false" s with
            | inl (_, r) => inl (JBool false, r) | inr e => inr e end
          else if Ascii.eqb c "n" then
            match pword "null" s with
            | inl (_, r) => inl (JNull, r) | inr e => inr e end
          else if Ascii.eqb c "-" || is_digit c then pnumber s
          else inr s
      end
  end

with pelems (fuel : nat) (s : string) (acc : list json) : res json :=
  match fuel with
  | 0 => inr s
  | S f =>
      match skip_ws s with
      | String "]" t => inl (JArray (rev acc), t)
      | String "," t =>
          match pvalue f t with
          | inl (v, r) => pelems f r (v :: acc)
          | inr e => inr e
          end
      | r => inr r
      end
  end

with pmembers (fuel : nat) (s : string) (acc : list (string * json))
  : res json :=
  match fuel with
  | 0 => inr s
  | S f =>
      match skip_ws s with
      | String c t =>
          if Ascii.eqb c dq then
            match pstring t with
            | inr e => inr e
            | inl (k, r) =>
                match skip_ws r with
                | String ":" r' =>
                    match pvalue f r' with
                    | inr e => inr e
                    | inl (v, r'') =>
                        match skip_ws r'' with
                        | String "}" u => inl (JObject (obj_set k v acc), u)
                        | String "," u => pmembers f u (obj_set k v acc)
                        | u => inr u
                        end
                    end
                | r' => inr r'
                end
            end
          else inr (String c t)
      | EmptyString => inr EmptyString
      end
  end.

(** The message of the [SyntaxError], in the wording V8 used up to Node 18
    for an unexpected character and for the end of the input. *)
Definition diagnostic (s rest : string) : string :=
  match rest with
  | EmptyString => "Unexpected end of JSON input"
  | String c _ =>
      "Unexpected token " ++ String c (" in JSON at position "
        ++ of_nat (String.length s - String.length rest))
  end.

(** [JSON.parse(s)] *)
Definition parse (s : string) : parsed :=
  match pvalue (2 * String.length s + 2) s with
  | inl (v, rest) =>
      match skip_ws rest with
      | EmptyString => inl v
      | r => inr (diagnostic s r)
      end
  | inr r => inr (diagnostic s r)
  end.

(** *** Printing *)

Definition hex_digit (n : nat) : ascii :=
  if n <? 10 then ascii_of_nat (48 + n) else ascii_of_nat (87 + n).

Fixpoint quote_body (s : string) : string :=
  match s with
  | EmptyString => EmptyString
  | String c t =>
      let n := nat_of_ascii c in
      (if Ascii.eqb c dq then String "\" (String dq "")
       else if Ascii.eqb c "\" then "\\"
       else if n =? 8 then "\b"
       else if n =? 12 then "\f"
       else if n =? 10 then "\n"
       else if n =? 13 then "\r"
       else if n =? 9 then "\t"
       else if n <? 32 then
         "\u00" ++ String (hex_digit (n / 16)) (String (hex_digit (n mod 16)) "")
       else String c "") ++ quote_body t
  end.

Definition quote (s : string) : string :=
  String dq (quote_body s ++ String dq "").

Fixpoint zeros (n : nat) : string :=
  match n with
  | 0 => EmptyString
  | S k => String "0" (zeros k)
  end.

(** [Number::toString] for the decimal [m * 10^e], [m] without trailing
    zeros: [k] digits, the decimal point after the [n]-th. *)
Definition number_to_string (m e : Z) : string :=
  if (m =? 0)%Z then "0"
  else
    let ds := of_nat (Z.to_nat (Z.abs m)) in
    let k := Z.of_nat (String.length ds) in
    let n := (k + e)%Z in
    let sign := if (m <? 0)%Z then "-" else "" in
    sign ++
    (if ((k <=? n) && (n <=? 21))%Z then ds ++ zeros (Z.to_nat (n - k))
     else if ((0 <? n) && (n <=? 21))%Z then
       substring 0 (Z.to_nat n) ds ++ "."
         ++ substring (Z.to_nat n) (String.length ds - Z.to_nat n) ds
     else if ((-6 <? n) && (n <=? 0))%Z then
       "0." ++ zeros (Z.to_nat (- n)) ++ ds
     else
       let x := (n - 1)%Z in
       let ex := (if (x <? 0)%Z then "-" else "+")
                   ++ of_nat (Z.to_nat (Z.abs x)) in
       match ds with
       | String d EmptyString => String d ("e" ++ ex)
       | String d rest => String d ("." ++ rest ++ "e" ++ ex)
       | EmptyString => EmptyString
       end).

Fixpoint join (sep : string) (l : list string) : string :=
  match l with
  | [] => EmptyString
  | [x] => x
  | x :: t => x ++ sep ++ join sep t
  end.

(** [JSON.stringify(v)] without indentation. *)
Fixpoint stringify (v : json) : string :=
  match v with
  | JNull => "null"
  | JBool true => "true"
  | JBool false => "false"
  | JNumber m e => number_to_string m e
  | JString s => quote s
  | JArray items => "[" ++ join "," (map stringify items) ++ "]"
  | JObject props =>
      "{" ++ join "," (map (fun kv => quote (fst kv) ++ ":" ++ stringify (snd kv))
                           props) ++ "}"
  end.

(** *** Numbers beyond the range of a double

    [JSON.parse] reads a number literal into a double: a literal whose
    magnitude reaches [2^1024 - 2^970], half way between the largest double
    and [2^1024], becomes an infinity, and [JSON.stringify] prints an
    infinity as [null].  [overflows m e] tells whether [m * 10^e] is such a
    number, and [stringify64] is [stringify] with this case added; the
    rounding of the numbers in range is still left out. *)
Definition double_limit : Z := (2 ^ 1024 - 2 ^ 970)%Z.

Definition overflows (m e : Z) : bool :=
  if (0 <=? e)%Z then (double_limit <=? Z.abs m * 10 ^ e)%Z
  else (double_limit * 10 ^ (- e) <=? Z.abs m)%Z.

Fixpoint stringify64 (v : json) : string :=
  match v with
  | JNull => "null"
  | JBool true => "true"
  | JBool false => "false"
  | JNumber m e => if overflows m e then "null" else number_to_string m e
  | JString s => quote s
  | JArray items => "[" ++ join "," (map stringify64 items) ++ "]"
  | JObject props =>
      "{" ++ join "," (map (fun kv => quote (fst kv) ++ ":" ++ stringify64 (snd kv))
                           props) ++ "}"
  end.

End Json.

(* ================================================================== *)
(** ** server/api.js: the repair pass *)
(* ================================================================== *)

Module Api.
Import JSStr Regex.

(** The patterns of [repairJSON], in the order of the source.  In the
    comments a blank is put between a star and a closing parenthesis. *)

(** [/<[^>]+>/g] *)
Definition re_tag : regex :=
  seq (Lit "<") [Plus (NCls [CChar ">"]); Lit ">"].

(** [/```json\n?/g] *)
Definition re_fence_json : regex :=
  seq (Lit "`") (lits "``json" ++ [Opt (Lit nl)]).

(** [/```\n?/g] *)
Definition re_fence : regex :=
  seq (Lit "`") (lits "``" ++ [Opt (Lit nl)]).

(** [/(['"])?([a-zA-Z0-9_]+)(['"])?\s*:/g] *)
Definition re_key : regex :=
  seq (Opt (Cap 1 (Cls [CChar "'"; CChar dq])))
      [Cap 2 (Plus (Cls [CRange "a" "z"; CRange "A" "Z"; CRange "0" "9";
                         CChar "_"]));
       Opt (Cap 3 (Cls [CChar "'"; CChar dq]));
       Star Sp; Lit ":"].

(** [/:\s*'([^']* )'/g] *)
Definition re_sq_value : regex :=
  seq (Lit ":") [Star Sp; Lit "'"; Cap 1 (Star (NCls [CChar "'"])); Lit "'"].

(** [/:\s*"([^"]* )'/g] *)
Definition re_mismatched : regex :=
  seq (Lit ":") [Star Sp; Lit dq; Cap 1 (Star (NCls [CChar dq])); Lit "'"].

(** [/:\s*'([^D]* )/g] with D the double quote *)
Definition re_sq_open : regex :=
  seq (Lit ":") [Star Sp; Lit "'"; Cap 1 (Star (NCls [CChar dq]))].

(** [/,(\s*[}\]])/g] *)
Definition re_trailing_comma : regex :=
  seq (Lit ",") [Cap 1 (seq (Star Sp) [Cls [CChar "}"; CChar "]"]])].

(** [/([}\]])\s*,\s*$/g] *)
Definition re_comma_at_end : regex :=
  seq (Cap 1 (Cls [CChar "}"; CChar "]"])) [Star Sp; Lit ","; Star Sp; Eos].

(** [/}\s*{/g], [/]\s*{/g], [/}\s*\[/g], [/]\s*\[/g] *)
Definition re_obj_obj : regex := seq (Lit "}") [Star Sp; Lit "{"].
Definition re_arr_obj : regex := seq (Lit "]") [Star Sp; Lit "{"].
Definition re_obj_arr : regex := seq (Lit "}") [Star Sp; Lit "["].
Definition re_arr_arr : regex := seq (Lit "]") [Star Sp; Lit "["].

(** [/\s+/g] *)
Definition re_spaces : regex := Plus Sp.

(** The replacement [':"$1"'] and the like. *)
Definition tpl_value : list titem :=
  [TLit ":"; TLit (String dq ""); TRef 1; TLit (String dq "")].

Definition tpl_key : list titem :=
  [TLit (String dq ""); TRef 2; TLit (String dq ""); TLit ":"].

(** The single stages of [repairJSON]. *)
Definition strip_tags (str : string) : string := replace_all re_tag [] str.

Definition strip_fences (str : string) : string :=
  replace_all re_fence [] (replace_all re_fence_json [] str).

Definition slice_braces (str : string) : string :=
  match indexOf "{" str, lastIndexOf "}" str with
  | Some firstBrace, Some lastBrace => slice firstBrace (lastBrace + 1) str
  | _, _ => str
  end.

Definition fix_quotes (str : string) : string :=
  replace_all re_sq_open tpl_value
    (replace_all re_mismatched tpl_value
      (replace_all re_sq_value tpl_value
        (replace_all re_key tpl_key str))).

Definition fix_trailing_commas (str : string) : string :=
  replace_all re_comma_at_end [TRef 1]
    (replace_all re_trailing_comma [TRef 1] str).

Definition fix_missing_commas (str : string) : string :=
  replace_all re_arr_arr [TLit ",["]
    (replace_all re_obj_arr [TLit ",["]
      (replace_all re_arr_obj [TLit ",{"]
        (replace_all re_obj_obj [TLit "},{"] str))).

Definition clean_whitespace (str : string) : string :=
  trim (replace_all re_spaces [TLit " "] str).

(** Texts in which white space only occurs as single blanks: the texts the
    last replacement of [repairJSON] produces. *)
Fixpoint collapsed (s : string) : bool :=
  match s with
  | EmptyString => true
  | String a t =>
      (if is_space a
       then Ascii.eqb a " " && starts_clean t
       else true)
      && collapsed t
  end.

(** [repairJSON(str)] *)
Definition repairJSON (str : string) : string :=
  clean_whitespace
    (fix_missing_commas
      (fix_trailing_commas
        (fix_quotes
          (slice_braces
            (strip_fences
              (strip_tags str)))))).

(** [jsonRegex], the pattern of the last attempt of [getGroqCompletion]:
    [/\{(?:[^{}]|(?:\{(?:[^{}]|(?:\{[^{}]* \}))* \}))* \}/g].
    [braces0] is its innermost group [\{[^{}]* \}], [braces1] the middle
    one. *)
Definition no_brace : regex := NCls [CChar "{"; CChar "}"].

Definition braces0 : regex := seq (Lit "{") [Star no_brace; Lit "}"].

Definition braces1 : regex :=
  seq (Lit "{") [Star (Alt no_brace braces0); Lit "}"].

Definition jsonRegex : regex :=
  seq (Lit "{") [Star (Alt no_brace braces1); Lit "}"].

(** Balanced braces, read from the left: [walk limit depth s] follows [s]
    from inside [depth] open braces, never opens more than [limit], and
    ends exactly where the outermost brace closes.  [braced limit w] holds
    of a text from an opening brace to its closing brace, with at most
    [limit - 1] levels of nesting inside. *)
Fixpoint walk (limit depth : nat) (s : string) : bool :=
  match s with
  | EmptyString => false
  | String c t =>
      if Ascii.eqb c "{" then (depth <? limit) && walk limit (S depth) t
      else if Ascii.eqb c "}" then
        match depth with
        | 0 => false
        | 1 => String.eqb t ""
        | S d => walk limit d t
        end
      else walk limit depth t
  end.

(** A text that leaves the depth where it found it. *)
Definition neutral (limit depth : nat) (body : string) : Prop :=
  forall rest, walk limit depth (body ++ rest) = walk limit depth rest.

Definition braced (limit : nat) (w : string) : bool :=
  match w with
  | String c t => Ascii.eqb c "{" && walk limit 1 t
  | EmptyString => false
  end.

(* ================================================================== *)
(** ** server/api.js: the staged parse and the task route *)
(* ================================================================== *)

Import Json.

(** What a function gives back: its return value, or the message of the
    [Error] it throws. *)
Definition outcome (A : Type) : Type := (A + string)%type.

(** The lines written to the console, in order. *)
Definition console : Type := list string.

Definition msg_initial_failed : string :=
  "Initial parse failed, attempting repair...".
Definition msg_repair_failed : string :=
  "Repair parse failed, attempting final fallback...".

(** [a || b] on a value that may be [undefined] (here [None]). *)
Definition truthy (v : json) : bool :=
  match v with
  | JNull => false
  | JBool b => b
  | JNumber m _ => negb (m =? 0)%Z
  | JString s => negb (String.eqb s "")
  | JArray _ => true
  | JObject _ => true
  end.

Definition or_else (x : option json) (d : json) : json :=
  match x with
  | Some v => if truthy v then v else d
  | None => d
  end.

Fixpoint lookup (k : string) (l : list (string * json)) : option json :=
  match l with
  | [] => None
  | (k', v) :: t => if String.eqb k' k then Some v else lookup k t
  end.

(** [v.k] for the property names the routes read ([id], [name],
    [description], [estimatedHours], [requiredSkills], [tasks]), none of
    which an array, a string, a number or a boolean has: reading them off
    [null] throws a [TypeError], off an object looks the key up, off
    anything else gives [undefined]. *)
Definition prop (v : json) (k : string) : outcome (option json) :=
  match v with
  | JNull => inr ("Cannot read properties of null (reading '" ++ k ++ "')")
  | JObject props => inl (lookup k props)
  | _ => inl None
  end.

Definition bind {A B : Type} (x : outcome A) (f : A -> outcome B) : outcome B :=
  match x with
  | inl a => f a
  | inr e => inr e
  end.

(** [!x] *)
Definition falsy (x : option json) : bool :=
  match x with
  | Some v => negb (truthy v)
  | None => true
  end.

Definition num (n : Z) : json := JNumber n 0.

Definition strings (l : list string) : json := JArray (map JString l).

(** A task literal of the source. *)
Definition task_record (id name description estimatedHours requiredSkills : json)
  : json :=
  JObject [("id", id); ("name", name); ("description", description);
           ("estimatedHours", estimatedHours);
           ("requiredSkills", requiredSkills)].

Definition reviewTask : json :=
  task_record (JString "1") (JString "Review Requirements")
    (JString "Review the provided documentation and break down into actionable tasks.")
    (num 4) (strings ["Business Analysis"; "Project Management"]).

Definition fallbackTasks : list json :=
  [ task_record (JString "fallback_1") (JString "Review Project Requirements")
      (JString "Review the documentation and identify key technical requirements.")
      (num 4) (strings ["Business Analysis"; "Technical Documentation"]);
    task_record (JString "fallback_2")
      (JString "Create Technical Implementation Plan")
      (JString "Develop a technical plan based on project requirements.")
      (num 8) (strings ["Project Management"; "Technical Architecture"]) ].

Definition emergencyFallbackTasks : list json :=
  [ task_record (JString "emergency_1") (JString "Document Review")
      (JString "Review project requirements and documents.")
      (num 4) (strings ["Documentation"; "Analysis"]) ].

(** The callback of [tasks.map]: one validated record, or the [TypeError]
    of reading a property of [null]. *)
Definition validateTask (task : json) (index : nat) : outcome json :=
  bind (prop task "id") (fun id =>
  bind (prop task "name") (fun name =>
  bind (prop task "description") (fun description =>
  bind (prop task "estimatedHours") (fun estimatedHours =>
  bind (prop task "requiredSkills") (fun requiredSkills =>
    inl (task_record
           (or_else id (JString ("task_" ++ of_nat (index + 1))))
           (or_else name (JString ("Task " ++ of_nat (index + 1))))
           (or_else description (JString "No description provided"))
           (match estimatedHours with
            | Some (JNumber m e) => JNumber m e
            | _ => num 4
            end)
           (match requiredSkills with
            | Some (JArray items) => JArray items
            | _ => strings ["General"]
            end))))))).

(** [tasks.map(callback)], from index [index] on: the first exception
    ends it. *)
Fixpoint mapTasks (tasks : list json) (index : nat) : outcome (list json) :=
  match tasks with
  | [] => inl []
  | task :: rest =>
      match validateTask task index with
      | inr e => inr e
      | inl t =>
          match mapTasks rest (index + 1) with
          | inr e => inr e
          | inl ts => inl (t :: ts)
          end
      end
  end.

(** What a route sends: [res.json(body)] or [res.status(n).json(body)]. *)
Record response : Type := Response { status : nat; body : json }.

(** [v.k], with [undefined] where the read throws. *)
Definition field (v : json) (k : string) : option json :=
  match prop v k with
  | inl x => x
  | inr _ => None
  end.

(** A record with the five fields in place: [id], [name] and [description]
    truthy, [estimatedHours] a number, [requiredSkills] an array. *)
Definition populated (t : json) : bool :=
  match t with
  | JObject [(k1, id); (k2, name); (k3, description);
             (k4, JNumber _ _); (k5, JArray _)] =>
      String.eqb k1 "id" && String.eqb k2 "name"
      && String.eqb k3 "description" && String.eqb k4 "estimatedHours"
      && String.eqb k5 "requiredSkills"
      && truthy id && truthy name && truthy description
  | _ => false
  end.

(** The types the prompt of the route asks of the model: [id] a string or
    a number, [name] and [description] strings, [estimatedHours] a number,
    [requiredSkills] an array of strings. *)
Definition is_string (v : json) : bool :=
  match v with JString _ => true | _ => false end.

Definition is_number (v : json) : bool :=
  match v with JNumber _ _ => true | _ => false end.

Definition well_typed (t : json) : bool :=
  match field t "id", field t "name", field t "description",
        field t "estimatedHours", field t "requiredSkills" with
  | Some id, Some name, Some description, Some hours, Some (JArray skills) =>
      (is_string id || is_number id) && is_string name
      && is_string description && is_number hours
      && forallb is_string skills
  | _, _, _, _, _ => false
  end.

(** The pattern the specification describes for the last attempt: braces
    with one level of nesting, which is the middle group of [jsonRegex]. *)
Definition oneLevelRegex : regex := braces1.

Section Normalizer.

(** The built-ins, taken as they come. *)
Variable JSON_parse : string -> parsed.
Variable JSON_stringify : json -> string.

(** A text on which [JSON.parse] throws. *)
Definition rejected (m : string) : Prop := exists d, JSON_parse m = inr d.

(** The [for] loop over the matches: the first that parses is returned. *)
Fixpoint firstParsed (matches : list string) : option string :=
  match matches with
  | [] => None
  | m :: rest =>
      match JSON_parse m with
      | inl v => Some (JSON_stringify v)
      | inr _ => firstParsed rest
      end
  end.

(** The inner [try] of [getGroqCompletion], from the text [content] of the
    completion on: the returned string or the message of the [Error]
    thrown, and what was logged. *)
Definition parseContent (content : string) : outcome string * console :=
  let log0 := ["Raw content before cleaning: " ++ content] in
  let content := trim content in
  match JSON_parse content with
  | inl v => (inl (JSON_stringify v), log0)
  | inr initialParseError =>
      let repairedContent := repairJSON content in
      let log1 := app log0 [msg_initial_failed;
                            "Repaired content: " ++ repairedContent] in
      match JSON_parse repairedContent with
      | inl v => (inl (JSON_stringify v), log1)
      | inr repairParseError =>
          let log2 := app log1 [msg_repair_failed] in
          match firstParsed (match_all jsonRegex repairedContent) with
          | Some r => (inl r, log2)
          | None =>
              (inr ("Failed to parse JSON after all repair attempts: "
                      ++ repairParseError), log2)
          end
      end
  end.

(** [getGroqCompletion], given how the call to the completion service
    ended: with the text of the completion, or with an exception.  The
    outer [catch] logs and rethrows under its own prefix. *)
Definition getGroqCompletion (completion : outcome string)
  : outcome string * console :=
  let rethrow (message : string) (log : console) :=
    (inr ("Groq API Error: " ++ message),
     app log ["Error with Groq API: " ++ message; "Full error object: {}"]) in
  match completion with
  | inr message => rethrow message []
  | inl content =>
      match parseContent content with
      | (inl r, log) => (inl r, log)
      | (inr message, log) => rethrow message log
      end
  end.

(** The response normaliser: [getGroqCompletion] on a completion with
    text [raw]. *)
Definition normalize (raw : string) : outcome string * console :=
  getGroqCompletion (inl raw).

(** What every caller does with the returned string:
    [JSON.parse(completion)]. *)
Definition parsedDocument (raw : string) : outcome json :=
  match fst (normalize raw) with
  | inl completion => JSON_parse completion
  | inr message => inr message
  end.

(** The inner [try] of [/api/breakdown-tasks]: the validated tasks, or the
    message of what was thrown. *)
Definition validatedTasks (completion : string) : outcome (list json) :=
  match JSON_parse completion with
  | inr e => inr e
  | inl result =>
      match result with
      | JArray tasks => mapTasks tasks 0
      | _ =>
          match prop result "tasks" with
          | inr e => inr e
          | inl t =>
              match t with
              | Some (JArray tasks) => mapTasks tasks 0
              | _ => mapTasks [reviewTask] 0
              end
          end
      end
  end.

(** [app.post('/api/breakdown-tasks')]: [documents] is [req.body.documents]
    ([None] when it is missing), [completion] how the call to the
    completion service ended. *)
Definition breakdownTasks (documents : option json)
    (completion : outcome string) : response :=
  if falsy documents then
    Response 400
      (JObject [("error", JString "Documents are required");
                ("details",
                 JString "The request body must contain documents object")])
  else
      match fst (getGroqCompletion completion) with
      | inr message =>
          Response 200
            (JObject [("tasks", JArray emergencyFallbackTasks);
                      ("error", JString message)])
      | inl text =>
          match validatedTasks text with
          | inl tasks => Response 200 (JObject [("tasks", JArray tasks)])
          | inr _ => Response 200 (JObject [("tasks", JArray fallbackTasks)])
          end
      end.

End Normalizer.

End Api.

(* ================================================================== *)
(** ** src/components/PlantUMLViewer.jsx *)
(* ================================================================== *)

Module Viewer.
Import JSStr.

Definition PLANTUML_SERVER : string := "https://www.plantuml.com/plantuml".
Definition PLANTUML_SERVER_BACKUP : string :=
  "https://plantuml-server.kkeisuke.dev/svg".

Definition startuml : string := "@startuml".
Definition enduml : string := "@enduml".

(** The state of the component, as [useState] initialises it. *)
Record state : Type := State {
  loading : bool;
  error : option string;
  imageUrl : string;
  useFallback : bool
}.

Definition initial : state := State true None "" false.

(** The lines written to the console, in order. *)
Definition console : Type := list string.

Inductive diagramType : Type := usecase | sequence | activity | component | class.

(** The chain of conditions at the head of [simplifyUml]. *)
Definition classify (originalContent : string) : diagramType :=
  let lc := toLowerCase originalContent in
  if includes lc "actor" || includes lc "usecase" then usecase
  else if includes lc "participant" || includes lc "->" then sequence
  else if includes lc "start" && includes lc "stop" then activity
  else if includes lc "component" then component
  else class.

(** The bodies of the [switch], one per diagram type. *)
Definition body_usecase : string := q "
actor User
actor Admin
rectangle System {
  usecase 'Use Case 1'
  usecase 'Use Case 2'
}
User --> (Use Case 1)
Admin --> (Use Case 2)
".

Definition body_sequence : string := "
participant User
participant System
participant Database
User -> System: Request
System -> Database: Query
Database --> System: Response
System --> User: Result
".

Definition body_activity : string := "
start
:Process Task;
if (Condition) then (yes)
  :Task A;
else (no)
  :Task B;
endif
:Final Task;
stop
".

Definition body_component : string := q "
package 'Frontend' {
  [UI Components]
}
package 'Backend' {
  [API]
  [Database]
}
[UI Components] --> [API]
[API] --> [Database]
".

Definition body_class : string := "
class User {
  +username: String
  +email: String
  +login()
}
class System {
  +processRequest()
}
User -- System
".

Definition body_of (t : diagramType) : string :=
  match t with
  | usecase => body_usecase
  | sequence => body_sequence
  | activity => body_activity
  | component => body_component
  | class => body_class
  end.

(** [title || 'UML Diagram'] *)
Definition title_or_default (title : option string) : string :=
  match title with
  | Some t => if String.eqb t "" then "UML Diagram" else t
  | None => "UML Diagram"
  end.

(** [simplifyUml(originalContent)]; [title] is the prop of the component. *)
Definition simplifyUml (title : option string) (originalContent : string)
  : string :=
  let diagramType := classify originalContent in
  let minimal := "@startuml
title " ++ title_or_default title ++ "
" in
  let minimal := minimal ++ body_of diagramType in
  minimal ++ "
@enduml".

(** The delimiting step of the effect: both tests look at [content]. *)
Definition delimit (content : string) : string :=
  let processedContent := content in
  let processedContent :=
    if negb (includes content startuml)
    then startuml ++ String nl processedContent else processedContent in
  let processedContent :=
    if negb (includes content enduml)
    then processedContent ++ String nl enduml else processedContent in
  processedContent.

Section Effect.

(** [plantumlEncoder.encode]: the encoded text, or the message of the
    exception it throws. *)
Variable encode : string -> string + string.

(** The [try] block: the URL, or the message of what was thrown. *)
Definition primary (content : option string) : (string + string) * console :=
  let shown := match content with Some c => c | None => "undefined" end in
  let log0 := ["PlantUML content: " ++ shown] in
  match content with
  | None => (inr "Empty PlantUML content", log0)
  | Some content =>
      if String.length (trim content) =? 0
      then (inr "Empty PlantUML content", log0)
      else
        let processedContent := delimit content in
        let log1 := app log0 ["Processed PlantUML content: " ++ processedContent] in
        match encode processedContent with
        | inr message => (inr message, log1)
        | inl encoded =>
            let url := PLANTUML_SERVER ++ "/svg/" ++ encoded in
            (inl url, app log1 ["Encoded PlantUML: " ++ encoded;
                                "PlantUML URL: " ++ url])
        end
  end.

(** The inner [try] of the [catch] block, after [setUseFallback(true)]:
    the fallback URL, or nothing when this attempt throws as well
    ([simplifyUml] on a content that is no string, or the encoder). *)
Definition fallback (content title : option string) : option string * console :=
  match content with
  | None => (None, ["Fallback encoding also failed"])
  | Some content =>
      let fallbackContent := simplifyUml title content in
      let log0 := ["Using simplified UML content: " ++ fallbackContent] in
      match encode fallbackContent with
      | inr _ => (None, app log0 ["Fallback encoding also failed"])
      | inl fallbackEncoded =>
          let fallbackUrl := PLANTUML_SERVER_BACKUP ++ "/" ++ fallbackEncoded in
          (Some fallbackUrl, app log0 ["Fallback PlantUML URL: " ++ fallbackUrl])
      end
  end.

(** The effect of [PlantUMLViewer], run on the initial state. *)
Definition effect (content title : option string) : state * console :=
  match primary content with
  | (inl url, log) => (State false None url false, log)
  | (inr message, log) =>
      let log1 := app log ["Error encoding PlantUML: " ++ message] in
      let failed := Some ("Failed to generate diagram: " ++ message) in
      match fallback content title with
      | (Some fallbackUrl, log2) =>
          (State false failed fallbackUrl true, app log1 log2)
      | (None, log2) => (State false failed "" true, app log1 log2)
      end
  end.

(** The diagram reference the effect leaves in the state. *)
Record DiagramReference : Type := Reference { url : string; isFallback : bool }.

(** [resolve] of a request with a string content. *)
Definition resolve (content : string) (title : option string)
  : DiagramReference :=
  let st := fst (effect (Some content) title) in
  Reference (imageUrl st) (useFallback st).

(** The reference the [catch] block leaves behind. *)
Definition fallback_reference (content : string) (title : option string)
  : DiagramReference :=
  match encode (simplifyUml title content) with
  | inl e => Reference (PLANTUML_SERVER_BACKUP ++ "/" ++ e) true
  | inr _ => Reference "" true
  end.

End Effect.

(** Encoders for the examples.  [sample_encode] writes every character as
    two hexadecimal digits; [failing_encode] always throws;
    [titled_encode] throws on a text without a [title] line. *)
Fixpoint hex_text (s : string) : string :=
  match s with
  | EmptyString => EmptyString
  | String c t =>
      let n := nat_of_ascii c in
      String (Json.hex_digit (n / 16))
        (String (Json.hex_digit (n mod 16)) (hex_text t))
  end.

Definition sample_encode (s : string) : string + string := inl (hex_text s).

Definition failing_encode (s : string) : string + string :=
  inr "encode failed".

Definition titled_encode (s : string) : string + string :=
  if includes s "title " then inl (hex_text s) else inr "no title".

End Viewer.

(* ================================================================== *)
(** ** server/api.js: diagram templates and the other routes *)
(* ================================================================== *)

Module ApiRoutes.
Import JSStr Json Api.

(** [s.split('\n')]: the text between the line feeds; never empty. *)
Fixpoint split_lines (s : string) : list string :=
  match s with
  | EmptyString => [EmptyString]
  | String c t =>
      if Ascii.eqb c nl then EmptyString :: split_lines t
      else match split_lines t with
           | l :: ls => String c l :: ls
           | [] => [String c EmptyString]
           end
  end.

(** [lines.join('\n')] *)
Definition join_lines (lines : list string) : string :=
  join (String nl "") lines.

(** [description.split('\n')[0]] and [description.split('\n').slice(1)] *)
Definition firstLine (description : string) : string :=
  hd EmptyString (split_lines description).

Definition restLines (description : string) : list string :=
  tl (split_lines description).

(** [s.substring(1)] *)
Definition substring1 (s : string) : string :=
  match s with
  | EmptyString => EmptyString
  | String _ t => t
  end.

(** The callback of [map] in the use case template. *)
Definition usecaseLine (line : string) : string :=
  if String.prefix "-" (trim line)
  then "  usecase " ++ String dq (trim (substring1 (trim line)) ++ String dq "")
  else line.

(** The fixed text of the templates, around the title and the body. *)
Definition tpl_title : string := "@startuml
title ".

Definition usecase_head : string := "
left to right direction
skinparam packageStyle rectangle

' Actors
actor User
actor Admin

' Use Cases
rectangle System {
".

Definition usecase_foot : string := "
}

' Relationships
User --> (Login)
User --> (View Dashboard)
Admin --> (Manage Users)
Admin --> (Configure System)

@enduml".

Definition sequence_head : string := "
skinparam sequenceMessageAlign center
skinparam responseMessageBelowArrow true

participant User
participant Frontend
participant Backend
participant Database

".

Definition class_head : string := "
skinparam classAttributeIconSize 0
skinparam classFontStyle bold
skinparam classArrowColor #2688d4
skinparam classBackgroundColor WhiteSmoke
skinparam classBorderColor #2688d4

".

Definition activity_head : string := "
skinparam ActivityBackgroundColor WhiteSmoke
skinparam ActivityBorderColor #2688d4
skinparam ActivityDiamondBackgroundColor WhiteSmoke
skinparam ActivityDiamondBorderColor #2688d4

start
".

Definition activity_foot : string := "
stop

@enduml".

Definition component_head : string := "
skinparam componentStyle uml2
skinparam component {
  BackgroundColor WhiteSmoke
  BorderColor #2688d4
  ArrowColor #2688d4
}

".

Definition default_head : string := "
skinparam defaultFontName Arial
skinparam defaultFontSize 12

".

Definition plain_foot : string := "

@enduml".

(** [generatePlantUMLCode(description, type)] on two strings. *)
Definition generatePlantUMLCode (description type : string) : string :=
  let title := tpl_title ++ firstLine description in
  let body := join_lines (restLines description) in
  let t := toLowerCase type in
  if String.eqb t "usecase" then
    title ++ usecase_head
      ++ join_lines (map usecaseLine (restLines description)) ++ usecase_foot
  else if String.eqb t "sequence" then title ++ sequence_head ++ body ++ plain_foot
  else if String.eqb t "class" then title ++ class_head ++ body ++ plain_foot
  else if String.eqb t "activity" then
    title ++ activity_head ++ body ++ activity_foot
  else if String.eqb t "component" then
    title ++ component_head ++ body ++ plain_foot
  else title ++ default_head ++ body ++ plain_foot.

(** The receiver of a string method: the string, or the message of the
    [TypeError] when the value is [undefined], [null] or has no such
    method. *)
Definition receiver (var method : string) (x : option json) : outcome string :=
  match x with
  | Some (JString s) => inl s
  | None =>
      inr ("Cannot read properties of undefined (reading '" ++ method ++ "')")
  | Some JNull =>
      inr ("Cannot read properties of null (reading '" ++ method ++ "')")
  | Some _ => inr (var ++ "." ++ method ++ " is not a function")
  end.

(** [generatePlantUMLCode(description, type)] on two values: [type] is used
    first, by the [switch]. *)
Definition callGenerate (description type : option json) : outcome string :=
  bind (receiver "type" "toLowerCase" type) (fun t =>
  bind (receiver "description" "split" description) (fun d =>
    inl (generatePlantUMLCode d t))).

(** The own properties that [{...v}] copies. *)
Definition indexed (items : list json) : list (string * json) :=
  combine (map of_nat (List.seq 0 (List.length items))) items.

Fixpoint chars (s : string) : list json :=
  match s with
  | EmptyString => []
  | String c t => JString (String c EmptyString) :: chars t
  end.

Definition spread (v : json) : list (string * json) :=
  match v with
  | JObject props => props
  | JArray items => indexed items
  | JString s => indexed (chars s)
  | _ => []
  end.

(** The callback of [result.umlDiagrams.map]:
    [{...diagram, content: diagram.content || generatePlantUMLCode(...)}]. *)
Definition processDiagram (diagram : json) : outcome json :=
  bind (prop diagram "content") (fun content =>
  bind (if falsy content
        then bind (callGenerate (field diagram "description")
                                (field diagram "type"))
                  (fun code => inl (JString code))
        else inl (or_else content JNull))
       (fun c => inl (JObject (obj_set "content" c (spread diagram))))).

Fixpoint mapDiagrams (diagrams : list json) : outcome (list json) :=
  match diagrams with
  | [] => inl []
  | d :: rest =>
      bind (processDiagram d) (fun d' =>
      bind (mapDiagrams rest) (fun rest' => inl (d' :: rest')))
  end.

Definition isArray (x : option json) : bool :=
  match x with
  | Some (JArray _) => true
  | _ => false
  end.

(** [!x || !Array.isArray(x) || x.length === 0] *)
Definition notFilledArray (x : option json) : bool :=
  match x with
  | Some (JArray (_ :: _)) => false
  | _ => true
  end.

(** A diagram as the route sends it: an object with a truthy content. *)
Definition drawn (d : json) : Prop :=
  exists props c,
    d = JObject props /\ lookup "content" props = Some c /\ truthy c = true.

(** What a document has when it passes the check of the route. *)
Definition complete (props : list (string * json)) (diagrams : list json) : Prop :=
  (exists srs, lookup "srs" props = Some srs /\ truthy srs = true)
  /\ (exists frd, lookup "frd" props = Some frd /\ truthy frd = true)
  /\ (exists brd, lookup "brd" props = Some brd /\ truthy brd = true)
  /\ lookup "umlDiagrams" props = Some (JArray diagrams).

(** An assignment as the route accepts it. *)
Definition assigned (a : json) : Prop :=
  exists who m e,
    field a "assignedTo" = Some who /\ truthy who = true
    /\ field a "confidence" = Some (JNumber m e).

Section Routes.

Variable JSON_parse : string -> parsed.
Variable JSON_stringify : json -> string.

(** [error.stack], as the engine words it. *)
Variable stackOf : string -> string.

(** The inner [try] of [/api/generate-documents]: the document that is
    sent, or the message of what was thrown. *)
Definition processDocuments (completion : string) : outcome json :=
  bind (JSON_parse completion) (fun result =>
  bind (prop result "umlDiagrams") (fun umlDiagrams =>
  bind (match umlDiagrams, result with
        | Some (JArray diagrams), JObject props =>
            bind (mapDiagrams diagrams) (fun ds =>
              inl (JObject (obj_set "umlDiagrams" (JArray ds) props)))
        | _, _ => inl result
        end) (fun result =>
    if falsy (field result "srs") || falsy (field result "frd")
       || falsy (field result "brd")
       || negb (isArray (field result "umlDiagrams"))
    then inr "Invalid response structure from AI"
    else inl result))).

Definition parseFailure (message completion : string) : response :=
  Response 500
    (JObject [("error", JString "Failed to parse AI response");
              ("details", JString message);
              ("rawResponse", JString completion)]).

(** [app.post('/api/generate-documents')]: [requirements] is
    [req.body.requirements], [completion] how the call to the completion
    service ended. *)
Definition generateDocuments (requirements : option json)
    (completion : outcome string) : response :=
  if falsy requirements then
    Response 400 (JObject [("error", JString "Requirements are required")])
  else
    match fst (getGroqCompletion JSON_parse JSON_stringify completion) with
    | inr message =>
        Response 500
          (JObject [("error", JString message);
                    ("stack", JString (stackOf message));
                    ("details",
                     JString "Error occurred while processing the request")])
    | inl text =>
        match processDocuments text with
        | inl result => Response 200 result
        | inr message => parseFailure message text
        end
    end.

(** The callback of [assignments.forEach]. *)
Definition checkAssignment (assignment : json) : outcome unit :=
  bind (prop assignment "assignedTo") (fun assignedTo =>
    if falsy assignedTo
    then inr ("Invalid assignment structure: " ++ JSON_stringify assignment)
    else
      match field assignment "confidence" with
      | Some (JNumber _ _) => inl tt
      | _ => inr ("Invalid assignment structure: " ++ JSON_stringify assignment)
      end).

Fixpoint forEachAssignment (assignments : list json) : outcome unit :=
  match assignments with
  | [] => inl tt
  | a :: rest => bind (checkAssignment a) (fun _ => forEachAssignment rest)
  end.

(** The inner [try] of [/api/assign-tasks]: the assignments that are sent,
    or the message of what was thrown. *)
Definition checkedAssignments (completion : string) : outcome json :=
  bind (JSON_parse completion) (fun result =>
  bind (match result with
        | JArray _ => inl (Some result)
        | _ => prop result "assignments"
        end) (fun assignments =>
    match assignments with
    | Some (JArray items) =>
        bind (forEachAssignment items) (fun _ => inl (JArray items))
    | None => inr "Cannot read properties of undefined (reading 'forEach')"
    | Some JNull => inr "Cannot read properties of null (reading 'forEach')"
    | Some _ => inr "assignments.forEach is not a function"
    end)).

(** [app.post('/api/assign-tasks')] *)
Definition assignTasks (tasks teamMembers : option json)
    (completion : outcome string) : response :=
  if notFilledArray tasks then
    Response 400
      (JObject [("error",
                 JString "Tasks array is required and must not be empty")])
  else if notFilledArray teamMembers then
    Response 400
      (JObject [("error",
                 JString "Team members array is required and must not be empty")])
  else
    match fst (getGroqCompletion JSON_parse JSON_stringify completion) with
    | inr message =>
        Response 500
          (JObject [("error", JString message);
                    ("details",
                     JString "Error occurred while processing the request")])
    | inl text =>
        match checkedAssignments text with
        | inl assignments => Response 200 assignments
        | inr message => parseFailure message text
        end
    end.

End Routes.

(** A stack trace for the examples. *)
Definition sample_stack (message : string) : string :=
  "Error: " ++ message.

End ApiRoutes.

(* ================================================================== *)
(** ** src/components/PlantUMLViewer.jsx: what the component shows *)
(* ================================================================== *)

Module ViewerView.
Import JSStr Viewer.

(** The three [return]s of the component. *)
Inductive view : Type :=
| Spinner
| ErrorBox (message : string)
| Diagram (src alt : string) (caption : option string).

(** The render of a state: the spinner while loading without fallback, the
    error text when there is one, the image otherwise. *)
Definition render (st : state) (title : option string) : view :=
  if loading st && negb (useFallback st) then Spinner
  else
    match error st with
    | Some message =>
        if String.eqb message "" then
          Diagram (imageUrl st) (title_or_default title)
            (match title with
             | Some t => if String.eqb t "" then None else Some t
             | None => None
             end)
        else ErrorBox message
    | None =>
        Diagram (imageUrl st) (title_or_default title)
          (match title with
           | Some t => if String.eqb t "" then None else Some t
           | None => None
           end)
    end.

End ViewerView.

(* ================================================================== *)
(** * Properties *)
(* ================================================================== *)

(** ** Strings *)

Section StringFacts.
Import JSStr.

Lemma append_nil_r (s : string) : s ++ "" = s.
Proof. induction s as [|c s IH]; simpl; [reflexivity | now rewrite IH]. Qed.

Lemma append_assoc (a b c : string) : (a ++ b) ++ c = a ++ (b ++ c).
Proof. induction a as [|x a IH]; simpl; [reflexivity | now rewrite IH]. Qed.

Lemma length_append (a b : string) :
  String.length (a ++ b) = String.length a + String.length b.
Proof. induction a as [|x a IH]; simpl; [reflexivity | now rewrite IH]. Qed.

Lemma substring_take (x y : string) :
  substring 0 (String.length x) (x ++ y) = x.
Proof. induction x as [|c x IH]; simpl; [now destruct y | now rewrite IH]. Qed.

Lemma prefix_nil (s : string) : String.prefix "" s = true.
Proof. destruct s; reflexivity. Qed.

Lemma prefix_cons (a b : ascii) (s t : string) :
  String.prefix (String a s) (String b t)
  = (if ascii_dec a b then String.prefix s t else false).
Proof. reflexivity. Qed.

Lemma prefix_app_self (a b : string) : String.prefix a (a ++ b) = true.
Proof.
  induction a as [|x a IH]; simpl.
  - apply prefix_nil.
  - destruct (ascii_dec x x); [exact IH | congruence].
Qed.

Lemma prefix_app_r (sub a b : string) :
  String.prefix sub a = true -> String.prefix sub (a ++ b) = true.
Proof.
  revert a; induction sub as [|x sub IH]; intros a H.
  - apply prefix_nil.
  - destruct a as [|y a]; simpl in *; [discriminate|].
    destruct (ascii_dec x y); [now apply IH | discriminate].
Qed.

Lemma prefix_trans (a b s : string) :
  String.prefix a b = true -> String.prefix b s = true ->
  String.prefix a s = true.
Proof.
  revert b s; induction a as [|x a IH]; intros b s Hab Hbs.
  - apply prefix_nil.
  - destruct b as [|y b]; [simpl in Hab; discriminate|].
    destruct s as [|z s]; [simpl in Hbs; discriminate|].
    rewrite prefix_cons in *.
    destruct (ascii_dec x y) as [->|]; [|discriminate].
    destruct (ascii_dec y z) as [->|]; [|discriminate].
    eauto.
Qed.

Lemma includes_cons (c : ascii) (s sub : string) :
  includes (String c s) sub = String.prefix sub (String c s) || includes s sub.
Proof. reflexivity. Qed.

Lemma includes_nil (sub : string) : includes "" sub = String.prefix sub "".
Proof. unfold includes. apply orb_false_r. Qed.

Lemma includes_prefix (s sub : string) :
  String.prefix sub s = true -> includes s sub = true.
Proof.
  intros H; destruct s; [rewrite includes_nil | rewrite includes_cons];
    rewrite H; reflexivity.
Qed.

Lemma includes_app_l (a b sub : string) :
  includes a sub = true -> includes (a ++ b) sub = true.
Proof.
  induction a as [|x a IH]; intros H.
  - rewrite includes_nil in H.
    apply includes_prefix. now apply (prefix_app_r _ "" b).
  - rewrite includes_cons in H. apply orb_true_iff in H.
    change (String x a ++ b) with (String x (a ++ b)).
    rewrite includes_cons. apply orb_true_iff.
    destruct H as [H|H].
    + left. now apply (prefix_app_r _ (String x a) b).
    + right. now apply IH.
Qed.

Lemma includes_app_r (a b sub : string) :
  includes b sub = true -> includes (a ++ b) sub = true.
Proof.
  intros H; induction a as [|x a IH]; simpl; [exact H|].
  rewrite IH. apply orb_true_r.
Qed.

(** A text that contains a word contains each prefix of the word. *)
Lemma includes_shorter (s w v : string) :
  String.prefix v w = true -> includes s w = true -> includes s v = true.
Proof.
  intros Hv; induction s as [|x s IH]; intros H.
  - rewrite includes_nil in *. eapply prefix_trans; eauto.
  - rewrite includes_cons in *. apply orb_true_iff in H. apply orb_true_iff.
    destruct H as [H|H]; [left; eapply prefix_trans; eauto | right; auto].
Qed.

Lemma prefix_lower (sub s : string) :
  String.prefix sub s = true ->
  String.prefix (toLowerCase sub) (toLowerCase s) = true.
Proof.
  revert s; induction sub as [|x sub IH]; intros s H.
  - apply prefix_nil.
  - destruct s as [|y s]; [simpl in H; discriminate|].
    rewrite prefix_cons in H. destruct (ascii_dec x y) as [->|]; [|discriminate].
    simpl. destruct (ascii_dec (lower_char y) (lower_char y)); [|congruence].
    now apply IH.
Qed.

Lemma includes_lower (s sub : string) :
  includes s sub = true -> includes (toLowerCase s) (toLowerCase sub) = true.
Proof.
  induction s as [|x s IH]; intros H.
  - rewrite includes_nil in H.
    apply includes_prefix. now apply (prefix_lower sub "").
  - rewrite includes_cons in H. apply orb_true_iff in H.
    change (toLowerCase (String x s))
      with (String (lower_char x) (toLowerCase s)).
    rewrite includes_cons. apply orb_true_iff.
    destruct H as [H|H].
    + left. now apply (prefix_lower sub (String x s)).
    + right. now apply IH.
Qed.

Lemma trimEnd_keeps (c : ascii) (t : string) :
  is_space c = false -> trimEnd (String c t) <> "".
Proof.
  intros Hc; simpl. destruct (trimEnd t); [rewrite Hc|]; discriminate.
Qed.

Lemma trim_empty_all_space (s : string) : trim s = "" -> all_space s = true.
Proof.
  unfold trim; induction s as [|c t IH]; intros H; [reflexivity|].
  simpl in H |- *. destruct (is_space c) eqn:Hc.
  - simpl. now apply IH.
  - exfalso. now apply (trimEnd_keeps c t Hc).
Qed.

Lemma lower_char_space (c : ascii) : is_space c = true -> lower_char c = c.
Proof.
  unfold is_space, lower_char; intros H.
  destruct (((65 <=? nat_of_ascii c) && (nat_of_ascii c <=? 90))
            || ((192 <=? nat_of_ascii c) && (nat_of_ascii c <=? 222)
                && negb (nat_of_ascii c =? 215))) eqn:E; [|reflexivity].
  exfalso.
  repeat (rewrite ?orb_true_iff, ?andb_true_iff, ?Nat.leb_le, ?Nat.eqb_eq in H).
  repeat (rewrite ?orb_true_iff, ?andb_true_iff, ?Nat.leb_le in E).
  lia.
Qed.

Lemma all_space_lower (s : string) :
  all_space s = true -> toLowerCase s = s.
Proof.
  induction s as [|c t IH]; simpl; intros H; [reflexivity|].
  apply andb_true_iff in H as [Hc Ht].
  now rewrite (lower_char_space c Hc), IH.
Qed.

(** White space does not contain a word that starts with another
    character. *)
Lemma all_space_no_word (s : string) (k : ascii) (w : string) :
  all_space s = true -> is_space k = false ->
  includes s (String k w) = false.
Proof.
  intros Hs Hk; induction s as [|c t IH].
  - reflexivity.
  - simpl in Hs. apply andb_true_iff in Hs as [Hc Ht].
    rewrite includes_cons, prefix_cons.
    destruct (ascii_dec k c) as [->|]; [congruence|].
    simpl. now apply IH.
Qed.

End StringFacts.

(** ** The diagram resolver *)

Section ViewerFacts.
Import JSStr Viewer.

Variable encode : string -> string + string.

(** What the delimiting step returns, case by case. *)
Lemma delimit_eq (content : string) :
  delimit content
  = (if includes content startuml then "" else startuml ++ String nl "")
      ++ content
      ++ (if includes content enduml then "" else String nl enduml).
Proof.
  unfold delimit.
  destruct (includes content startuml), (includes content enduml); simpl;
    rewrite ?append_nil_r; reflexivity.
Qed.

(** C8.  The delimiting step adds [@startuml] in front only when the content
    lacks it and [@enduml] behind only when the content lacks it; a content
    that has both markers comes back unchanged, and the result always
    contains both markers. *)
Theorem delimit_markers (content : string) :
  delimit content
  = (if includes content startuml then "" else startuml ++ String nl "")
      ++ content
      ++ (if includes content enduml then "" else String nl enduml)
  /\ (includes content startuml = true -> includes content enduml = true ->
      delimit content = content)
  /\ includes (delimit content) startuml = true
  /\ includes (delimit content) enduml = true.
Proof.
  split; [apply delimit_eq|]. split.
  - intros H1 H2. rewrite delimit_eq, H1, H2. simpl. apply append_nil_r.
  - rewrite delimit_eq. split.
    + destruct (includes content startuml) eqn:H1.
      * simpl. now apply includes_app_l.
      * apply includes_app_l. reflexivity.
    + destruct (includes content enduml) eqn:H2.
      * rewrite append_nil_r. now apply includes_app_r.
      * apply includes_app_r, includes_app_r. reflexivity.
Qed.

Lemma delimit_markers_witness :
  includes "@startuml
A -> B
@enduml" startuml = true /\
  includes "@startuml
A -> B
@enduml" enduml = true /\
  delimit "@startuml
A -> B
@enduml" = "@startuml
A -> B
@enduml".
Proof.
  split; [reflexivity|]. split; [reflexivity|].
  apply (proj1 (proj2 (delimit_markers _))); reflexivity.
Defined.

Lemma resolve_eq (content : string) (title : option string) :
  resolve encode content title
  = match fst (primary encode (Some content)) with
    | inl u => Reference u false
    | inr _ => fallback_reference encode content title
    end.
Proof.
  unfold resolve, effect, fallback_reference.
  destruct (primary encode (Some content)) as [[u|m] lg]; simpl; [reflexivity|].
  destruct (encode (simplifyUml title content)); reflexivity.
Qed.


Lemma classify_blank (content : string) :
  trim content = "" -> classify content = class.
Proof.
  intros H. apply trim_empty_all_space in H. unfold classify.
  rewrite (all_space_lower _ H).
  rewrite !(all_space_no_word _ _ _ H) by reflexivity. reflexivity.
Qed.

(** C9.  A content that is empty or white space only after trimming makes
    the effect throw before anything is encoded: the primary URL is not
    built, and the reference is the one of the fallback branch, built from
    the template of the class diagram. *)
Theorem blank_content_takes_fallback (content : string) (title : option string) :
  trim content = "" ->
  primary encode (Some content)
    = (inr "Empty PlantUML content", ["PlantUML content: " ++ content])
  /\ resolve encode content title = fallback_reference encode content title
  /\ isFallback (resolve encode content title) = true
  /\ classify content = class
  /\ simplifyUml title content
     = "@startuml
title " ++ title_or_default title ++ "
" ++ body_class ++ "
@enduml"
  /\ String.prefix PLANTUML_SERVER (url (resolve encode content title)) = false.
Proof.
  intros H.
  assert (Hp : primary encode (Some content)
               = (inr "Empty PlantUML content",
                  ["PlantUML content: " ++ content])).
  { unfold primary. rewrite H. reflexivity. }
  assert (Hr : resolve encode content title
               = fallback_reference encode content title).
  { rewrite resolve_eq, Hp. reflexivity. }
  split; [exact Hp|]. split; [exact Hr|]. rewrite Hr.
  split; [|split; [now apply classify_blank|split]].
  - unfold fallback_reference.
    destruct (encode (simplifyUml title content)); reflexivity.
  - unfold simplifyUml. rewrite (classify_blank _ H).
    rewrite !append_assoc. reflexivity.
  - unfold fallback_reference.
    destruct (encode (simplifyUml title content)); reflexivity.
Qed.

(** C7 (as amended).  The fallback classifies the lower-cased content in
    the order usecase, sequence, activity, component, class; its text is the
    template of that category under the title of the request (or the default
    title).  Whenever the primary path fails the reference is flagged as
    fallback, whatever the encoder does, and the URL is the backup server
    followed by what the encoder returns for that text.  A content with
    [participant A] that has neither [actor] nor [usecase] gets the sequence
    template, which contains [participant], and is flagged as fallback when
    the primary path fails. *)
Theorem fallback_classifies_by_priority (content : string) (title : option string) :
  let lc := toLowerCase content in
  (includes lc "actor" = true \/ includes lc "usecase" = true ->
   classify content = usecase)
  /\ (includes lc "actor" = false -> includes lc "usecase" = false ->
      includes lc "participant" = true \/ includes lc "->" = true ->
      classify content = sequence)
  /\ (includes lc "actor" = false -> includes lc "usecase" = false ->
      includes lc "participant" = false -> includes lc "->" = false ->
      includes lc "start" = true -> includes lc "stop" = true ->
      classify content = activity)
  /\ (includes lc "actor" = false -> includes lc "usecase" = false ->
      includes lc "participant" = false -> includes lc "->" = false ->
      includes lc "start" = false \/ includes lc "stop" = false ->
      includes lc "component" = true ->
      classify content = component)
  /\ (includes lc "actor" = false -> includes lc "usecase" = false ->
      includes lc "participant" = false -> includes lc "->" = false ->
      includes lc "start" = false \/ includes lc "stop" = false ->
      includes lc "component" = false ->
      classify content = class)
  /\ simplifyUml title content
     = "@startuml
title " ++ title_or_default title ++ "
" ++ body_of (classify content) ++ "
@enduml"
  /\ (forall t, t <> "" -> title_or_default (Some t) = t)
  /\ (forall message,
        fst (primary encode (Some content)) = inr message ->
        isFallback (resolve encode content title) = true
        /\ forall e,
             encode (simplifyUml title content) = inl e ->
             url (resolve encode content title)
             = PLANTUML_SERVER_BACKUP ++ "/" ++ e)
  /\ (includes content "participant A" = true ->
      includes lc "actor" = false -> includes lc "usecase" = false ->
      classify content = sequence
      /\ includes (simplifyUml title content) "participant" = true
      /\ forall message,
           fst (primary encode (Some content)) = inr message ->
           isFallback (resolve encode content title) = true).
Proof.
  intros lc.
  assert (Hseq : includes lc "actor" = false -> includes lc "usecase" = false ->
                 includes lc "participant" = true \/ includes lc "->" = true ->
                 classify content = sequence).
  { intros H1 H2 H3. unfold classify. fold lc. rewrite H1, H2. simpl.
    destruct H3 as [-> | ->]; [|rewrite orb_true_r]; reflexivity. }
  assert (Htpl : simplifyUml title content
     = "@startuml
title " ++ title_or_default title ++ "
" ++ body_of (classify content) ++ "
@enduml").
  { unfold simplifyUml. rewrite !append_assoc. reflexivity. }
  split; [|split; [exact Hseq|split; [|split; [|split; [|split;
    [exact Htpl|split; [|split]]]]]]].
  - intros H. unfold classify. fold lc.
    destruct H as [-> | ->]; [|rewrite orb_true_r]; reflexivity.
  - intros H1 H2 H3 H4 H5 H6. unfold classify. fold lc.
    rewrite H1, H2, H3, H4, H5, H6. reflexivity.
  - intros H1 H2 H3 H4 H5 H6. unfold classify. fold lc.
    rewrite H1, H2, H3, H4, H6. simpl.
    destruct H5 as [-> | ->]; [|rewrite andb_false_r]; reflexivity.
  - intros H1 H2 H3 H4 H5 H6. unfold classify. fold lc.
    rewrite H1, H2, H3, H4, H6. simpl.
    destruct H5 as [-> | ->]; [|rewrite andb_false_r]; reflexivity.
  - intros t Ht. unfold title_or_default.
    destruct (String.eqb_spec t ""); [contradiction | reflexivity].
  - intros message Hp. rewrite resolve_eq, Hp. unfold fallback_reference.
    split.
    + destruct (encode (simplifyUml title content)); reflexivity.
    + intros e He. rewrite He. reflexivity.
  - intros Hpa H1 H2.
    assert (Hp : includes lc "participant" = true).
    { apply (includes_shorter lc "participant a" "participant");
        [reflexivity|].
      exact (includes_lower content "participant A" Hpa). }
    assert (Hc : classify content = sequence) by (apply Hseq; auto).
    split; [exact Hc|]. split.
    + rewrite Htpl, Hc.
      apply includes_app_r, includes_app_r, includes_app_r, includes_app_l.
      reflexivity.
    + intros message Hm. rewrite resolve_eq, Hm. unfold fallback_reference.
      destruct (encode (simplifyUml title content)); reflexivity.
Qed.


End ViewerFacts.

Section ViewerExamples.
Import JSStr Viewer.

Lemma blank_content_takes_fallback_witness :
  trim "  
 " = ""
  /\ resolve sample_encode "  
 " (Some "Orders")
     = fallback_reference sample_encode "  
 " (Some "Orders").
Proof.
  split; [reflexivity|].
  apply (blank_content_takes_fallback sample_encode "  
 " (Some "Orders")).
  reflexivity.
Defined.

(** C7, counterexample.  A content with [participant A] and no [start] or
    [stop] that also names an actor gets the use case template, in which
    [participant] does not occur; and when the encoder throws again on the
    template, no URL is left at all. *)
Lemma fallback_participant_counterexample :
  let content := "actor Bob
participant A" in
  includes content "participant A" = true
  /\ includes (toLowerCase content) "start" = false
  /\ includes (toLowerCase content) "stop" = false
  /\ classify content = usecase
  /\ includes (simplifyUml None content) "participant" = false
  /\ resolve failing_encode "participant A" None = Reference "" true.
Proof. vm_compute. repeat split. Qed.

Lemma fallback_classifies_by_priority_witness :
  let content := "participant A
A -> B: hello" in
  fst (primary titled_encode (Some content)) = inr "no title"
  /\ classify content = sequence
  /\ includes (simplifyUml (Some "Orders") content) "participant" = true
  /\ isFallback (resolve titled_encode content (Some "Orders")) = true
  /\ url (resolve titled_encode content (Some "Orders"))
     = PLANTUML_SERVER_BACKUP ++ "/"
         ++ hex_text (simplifyUml (Some "Orders") content).
Proof.
  intros content.
  pose proof (fallback_classifies_by_priority titled_encode content
                (Some "Orders")) as H.
  destruct H as (_ & _ & _ & _ & _ & _ & _ & Hres & Hpart).
  split; [reflexivity|].
  destruct Hpart as (Hc & Hi & Hf); [reflexivity | reflexivity | reflexivity |].
  split; [exact Hc|]. split; [exact Hi|].
  split; [apply (Hf "no title"); reflexivity|].
  apply (proj2 (Hres "no title" eq_refl)). reflexivity.
Defined.

(** With an encoder that throws on every text the fallback throws as
    well: the inner [catch] swallows the exception and the URL stays
    empty, under the fallback flag. *)
Lemma failing_encoder_leaves_url_empty :
  resolve failing_encode "A -> B" None = Reference "" true.
Proof. reflexivity. Qed.


End ViewerExamples.

(** ** The matcher *)

Section RegexFacts.
Import JSStr Regex Api.

Lemma star_loop_words step (r : regex) (Hstep : sound step r) :
  forall fuel k s cs x,
    star_loop step k fuel s cs = Some x ->
    exists w s' cs', s = w ++ s' /\ matches (Star r) w /\ k s' cs' = Some x.
Proof.
  induction fuel as [|f IH]; intros k s cs x H; simpl in H.
  - exists "", s, cs. repeat split; [constructor | exact H].
  - destruct (step s cs _) as [y|] eqn:E.
    + injection H as ->.
      destruct (Hstep _ _ _ _ E) as (w1 & s1 & c1 & -> & M1 & K).
      destruct (String.length s1 <? String.length (w1 ++ s1)); [|discriminate].
      destruct (IH _ _ _ _ K) as (w2 & s2 & c2 & -> & M2 & K2).
      exists (w1 ++ w2), s2, c2. rewrite append_assoc.
      repeat split; [now constructor | exact K2].
    + exists "", s, cs. repeat split; [constructor | exact H].
Qed.

Lemma run_sound (r : regex) : sound (run r) r.
Proof.
  induction r as [c|items|items|r1 IH1 r2 IH2|r1 IH1 r2 IH2|r1 IH1|r1 IH1
                  |r1 IH1|n r1 IH1|]; intros s cs k x H; simpl in H.
  - destruct s as [|a t]; [discriminate|].
    destruct (Ascii.eqb_spec a c) as [->|]; [|discriminate].
    exists (String c ""), t, cs. repeat split; [constructor | exact H].
  - destruct s as [|a t]; [discriminate|].
    destruct (in_class a items) eqn:E; [|discriminate].
    exists (String a ""), t, cs. repeat split; [now constructor | exact H].
  - destruct s as [|a t]; [discriminate|].
    destruct (in_class a items) eqn:E; [discriminate|].
    exists (String a ""), t, cs. repeat split; [now constructor | exact H].
  - destruct (IH1 _ _ _ _ H) as (w1 & s1 & c1 & -> & M1 & K).
    destruct (IH2 _ _ _ _ K) as (w2 & s2 & c2 & -> & M2 & K2).
    exists (w1 ++ w2), s2, c2. rewrite append_assoc.
    repeat split; [now constructor | exact K2].
  - destruct (run r1 s cs k) as [y|] eqn:E.
    + injection H as ->.
      destruct (IH1 _ _ _ _ E) as (w & s' & c' & -> & M & K).
      exists w, s', c'. repeat split; [now apply MAltL | exact K].
    + destruct (IH2 _ _ _ _ H) as (w & s' & c' & -> & M & K).
      exists w, s', c'. repeat split; [now apply MAltR | exact K].
  - exact (star_loop_words IH1 _ _ _ _ H).
  - destruct (IH1 _ _ _ _ H) as (w1 & s1 & c1 & -> & M1 & K).
    destruct (star_loop_words IH1 _ _ _ _ K) as (w2 & s2 & c2 & -> & M2 & K2).
    exists (w1 ++ w2), s2, c2. rewrite append_assoc.
    repeat split; [now constructor | exact K2].
  - destruct (run r1 s cs k) as [y|] eqn:E.
    + injection H as ->.
      destruct (IH1 _ _ _ _ E) as (w & s' & c' & -> & M & K).
      exists w, s', c'. repeat split; [now apply MOptOne | exact K].
    + exists "", s, cs. repeat split; [constructor | exact H].
  - destruct (IH1 _ _ _ _ H) as (w & s' & c' & -> & M & K).
    eexists w, s', _. repeat split; [now constructor | exact K].
  - destruct s; [|discriminate].
    exists "", "", cs. repeat split; [constructor | exact H].
Qed.

Lemma exec_here_sound (r : regex) (s : string) (n : nat) (cs : caps) :
  exec_here r s = Some (n, cs) ->
  matches r (substring 0 n s) /\ n <= String.length s.
Proof.
  unfold exec_here. destruct (run r s [] k_done) as [[s' cs']|] eqn:E;
    [|discriminate].
  intros H. injection H as <- <-.
  destruct (run_sound _ _ _ _ E) as (w & s1 & c1 & -> & M & K).
  unfold k_done in K. injection K as -> ->.
  rewrite length_append.
  replace (String.length w + String.length s' - String.length s')
    with (String.length w) by lia.
  rewrite substring_take. split; [exact M | lia].
Qed.

(** Every match reported by [s.match(/r/g)] is a word of the pattern. *)
Lemma match_go_sound (r : regex) (s : string) :
  forall skip m, In m (match_go r s skip) -> matches r m.
Proof.
  induction s as [|c t IH]; intros skip m H; simpl in H.
  - destruct skip; [|contradiction].
    destruct (exec_here r "") as [[n cs]|] eqn:E; [|contradiction].
    destruct H as [<-|[]].
    destruct (exec_here_sound _ _ E) as [M L]. simpl in L.
    assert (n = 0) by lia. subst n. exact M.
  - destruct skip as [|k]; [|now apply (IH k)].
    destruct (exec_here r (String c t)) as [[[|n] cs]|] eqn:E.
    + destruct H as [<-|H]; [|now apply (IH 0)].
      exact (proj1 (exec_here_sound _ _ E)).
    + destruct H as [<-|H]; [|now apply (IH n)].
      exact (proj1 (exec_here_sound _ _ E)).
    + now apply (IH 0).
Qed.

(** *** The words of [jsonRegex] *)

Lemma no_brace_neutral (limit depth : nat) (w : string) :
  matches no_brace w -> neutral limit depth w.
Proof.
  intros M rest. inversion M as [| |items a E| | | | | | | | | |]; subst.
  unfold in_class in E. simpl in E. rewrite orb_false_r in E.
  apply orb_false_iff in E as [E1 E2]. simpl. now rewrite E1, E2.
Qed.

Lemma star_neutral (limit depth : nat) (r : regex) (w : string) :
  (forall v, matches r v -> neutral limit depth v) ->
  matches (Star r) w -> neutral limit depth w.
Proof.
  intros Hr M. remember (Star r) as R eqn:ER.
  induction M; try discriminate; injection ER as ->.
  - intros rest. reflexivity.
  - intros rest. rewrite append_assoc, (Hr _ M1). now apply IHM2.
Qed.

Lemma alt_neutral (limit depth : nat) (r1 r2 : regex) (w : string) :
  (forall v, matches r1 v -> neutral limit depth v) ->
  (forall v, matches r2 v -> neutral limit depth v) ->
  matches (Alt r1 r2) w -> neutral limit depth w.
Proof. intros H1 H2 M. inversion M; subst; auto. Qed.

(** The shape of a word of [{ body* }]. *)
Lemma group_words (r : regex) (w : string) :
  matches (seq (Lit "{") [Star r; Lit "}"]) w ->
  exists body, w = String "{" (body ++ "}") /\ matches (Star r) body.
Proof.
  simpl. intros M.
  inversion M as [| | |? ? w1 w2 M1 M2| | | | | | | | |]; subst.
  inversion M1; subst.
  inversion M2 as [| | |? ? w3 w4 M3 M4| | | | | | | | |]; subst.
  inversion M4; subst. exists w3. split; [reflexivity | exact M3].
Qed.

Lemma group_neutral (limit d : nat) (body : string) :
  S d < limit -> neutral limit (S (S d)) body ->
  neutral limit (S d) (String "{" (body ++ "}")).
Proof.
  intros Hd Hb rest. simpl.
  destruct (S d <? limit) eqn:E; [|apply Nat.ltb_ge in E; lia].
  simpl. rewrite append_assoc, Hb. reflexivity.
Qed.

Lemma braces0_neutral (limit d : nat) (w : string) :
  S d < limit -> matches braces0 w -> neutral limit (S d) w.
Proof.
  intros Hd M. destruct (group_words M) as (body & -> & Mb).
  apply group_neutral; [exact Hd|].
  apply (star_neutral (r := no_brace)); [|exact Mb].
  intros v Mv. now apply no_brace_neutral.
Qed.

Lemma braces1_neutral (limit d : nat) (w : string) :
  S (S d) < limit -> matches braces1 w -> neutral limit (S d) w.
Proof.
  intros Hd M. destruct (group_words M) as (body & -> & Mb).
  apply group_neutral; [lia|].
  apply (star_neutral (r := Alt no_brace braces0)); [|exact Mb].
  intros v Mv. apply (alt_neutral (r1 := no_brace) (r2 := braces0));
    [| |exact Mv].
  - intros u Mu. now apply no_brace_neutral.
  - intros u Mu. now apply braces0_neutral.
Qed.

(** A word of [jsonRegex] runs from an opening brace to the brace that
    closes it and nests at most two levels of braces inside. *)
Lemma jsonRegex_braced (w : string) : matches jsonRegex w -> braced 3 w = true.
Proof.
  intros M. destruct (group_words M) as (body & -> & Mb).
  assert (N : neutral 3 1 body).
  { apply (star_neutral (r := Alt no_brace braces1)); [|exact Mb].
    intros v Mv. apply (alt_neutral (r1 := no_brace) (r2 := braces1));
      [| |exact Mv].
    - intros u Mu. now apply no_brace_neutral.
    - intros u Mu. apply braces1_neutral; [lia | exact Mu]. }
  simpl. rewrite N. reflexivity.
Qed.

Lemma candidates_braced (s : string) :
  Forall (fun m => braced 3 m = true) (match_all jsonRegex s).
Proof.
  apply Forall_forall. intros m H.
  apply jsonRegex_braced. exact (match_go_sound _ _ _ _ H).
Qed.

End RegexFacts.

(** ** The response normaliser *)

Section NormalizerFacts.
Import JSStr Regex Json Api.

Variable JSON_parse : string -> parsed.
Variable JSON_stringify : json -> string.

Lemma firstParsed_none (matches : list string) :
  firstParsed JSON_parse JSON_stringify matches = None <-> Forall (rejected JSON_parse) matches.
Proof.
  induction matches as [|m rest IH]; simpl.
  - split; [constructor | reflexivity].
  - destruct (JSON_parse m) as [v|d] eqn:E.
    + split; [discriminate|]. intros H. inversion H as [|? ? [d Hd] _].
      congruence.
    + rewrite IH. split.
      * intros H. constructor; [now exists d | exact H].
      * intros H. now inversion H.
Qed.

Lemma firstParsed_some (matches : list string) (r : string) :
  firstParsed JSON_parse JSON_stringify matches = Some r <->
  exists before m after v,
    matches = (before ++ m :: after)%list
    /\ Forall (rejected JSON_parse) before
    /\ JSON_parse m = inl v /\ r = JSON_stringify v.
Proof.
  revert r; induction matches as [|m rest IH]; intros r; simpl.
  - split; [discriminate|]. intros (before & m & after & v & H & _).
    destruct before; discriminate.
  - destruct (JSON_parse m) as [v|d] eqn:E.
    + split.
      * intros H. injection H as H. subst r. exists [], m, rest, v.
        repeat split; auto.
      * intros (before & m' & after & v' & H & Hb & Hm & Hr).
        destruct before as [|b before]; simpl in H; injection H as H1 H2.
        -- subst. congruence.
        -- subst. inversion Hb as [|? ? [d Hd] _]. congruence.
    + rewrite IH. split.
      * intros (before & m' & after & v' & H & Hb & Hm & Hr).
        exists (m :: before), m', after, v'. subst.
        repeat split; auto. constructor; [now exists d | exact Hb].
      * intros (before & m' & after & v' & H & Hb & Hm & Hr).
        destruct before as [|b before]; simpl in H; injection H as H1 H2.
        -- subst. congruence.
        -- exists before, m', after, v'. inversion Hb. repeat split; auto.
Qed.

(** The three stages, as one equation. *)
Lemma normalize_fst (raw : string) :
  fst (normalize JSON_parse JSON_stringify raw)
  = match JSON_parse (trim raw) with
    | inl v => inl (JSON_stringify v)
    | inr _ =>
        match JSON_parse (repairJSON (trim raw)) with
        | inl v => inl (JSON_stringify v)
        | inr d =>
            match firstParsed JSON_parse JSON_stringify (match_all jsonRegex (repairJSON (trim raw))) with
            | Some r => inl r
            | None =>
                inr ("Groq API Error: "
                       ++ "Failed to parse JSON after all repair attempts: "
                       ++ d)
            end
        end
    end.
Proof.
  unfold Api.normalize, getGroqCompletion, parseContent.
  destruct (JSON_parse (trim raw)); [reflexivity|].
  destruct (JSON_parse (repairJSON (trim raw))); [reflexivity|].
  destruct (firstParsed _ _ _); reflexivity.
Qed.

(** C1 (as amended).  When the trimmed text parses, the first stage
    answers: the result is the serialisation of [JSON.parse] of the trimmed
    text, and the console shows neither the repair nor the extraction being
    entered.  What the callers read back from it is the parsed value again
    whenever [JSON.parse] inverts [JSON.stringify] on that value. *)
Theorem valid_json_short_circuits (raw : string) (v : json) :
  JSON_parse (trim raw) = inl v ->
  normalize JSON_parse JSON_stringify raw
    = (inl (JSON_stringify v), ["Raw content before cleaning: " ++ raw])
  /\ ~ In msg_initial_failed (snd (normalize JSON_parse JSON_stringify raw))
  /\ ~ In msg_repair_failed (snd (normalize JSON_parse JSON_stringify raw))
  /\ (JSON_parse (JSON_stringify v) = inl v ->
      parsedDocument JSON_parse JSON_stringify raw = inl v).
Proof.
  intros H.
  assert (E : normalize JSON_parse JSON_stringify raw
              = (inl (JSON_stringify v),
                 ["Raw content before cleaning: " ++ raw])).
  { unfold Api.normalize, getGroqCompletion, parseContent. rewrite H.
    reflexivity. }
  split; [exact E|]. unfold parsedDocument. rewrite E. simpl.
  split; [|split].
  - intros [A|[]]. discriminate A.
  - intros [A|[]]. discriminate A.
  - auto.
Qed.

(** C3 (as amended).  An error is raised exactly when the direct parse, the
    parse of the repaired text and every extracted candidate fail; its
    message is the fixed prefix followed by the diagnostic of the parse of
    the repaired text. *)
Theorem normalize_raises_iff (raw message : string) :
  fst (normalize JSON_parse JSON_stringify raw) = inr message <->
  exists d0 d,
    JSON_parse (trim raw) = inr d0
    /\ JSON_parse (repairJSON (trim raw)) = inr d
    /\ Forall (rejected JSON_parse) (match_all jsonRegex (repairJSON (trim raw)))
    /\ message = "Groq API Error: "
                   ++ "Failed to parse JSON after all repair attempts: " ++ d.
Proof.
  rewrite normalize_fst.
  destruct (JSON_parse (trim raw)) as [v|d0].
  { split; [discriminate|]. intros (? & ? & A & _). discriminate A. }
  destruct (JSON_parse (repairJSON (trim raw))) as [v|d].
  { split; [discriminate|]. intros (? & ? & _ & A & _). discriminate A. }
  destruct (firstParsed _ _ _) as [r|] eqn:F.
  - split; [discriminate|]. intros (? & ? & _ & _ & A & _).
    apply firstParsed_none in A. congruence.
  - apply firstParsed_none in F. split.
    + intros A. injection A as <-. exists d0, d. auto.
    + intros (? & d' & _ & A & _ & ->). injection A as <-. reflexivity.
Qed.

(** C6 (as amended).  After the direct parse and the parse of the repaired
    text have failed, the matches of [jsonRegex] in the repaired text are
    tried in order of appearance and the first that parses is returned,
    serialised; when none parses the error is raised.  Every candidate runs
    from an opening brace to the brace that closes it, with at most two
    levels of nesting inside.  The attempt is announced on the console. *)
Theorem extraction_returns_first_parsable (raw d0 d : string) :
  JSON_parse (trim raw) = inr d0 ->
  JSON_parse (repairJSON (trim raw)) = inr d ->
  let candidates := match_all jsonRegex (repairJSON (trim raw)) in
  Forall (fun m => braced 3 m = true) candidates
  /\ (forall before m after v,
      candidates = (before ++ m :: after)%list ->
      Forall (rejected JSON_parse) before -> JSON_parse m = inl v ->
      fst (normalize JSON_parse JSON_stringify raw) = inl (JSON_stringify v))
  /\ (Forall (rejected JSON_parse) candidates -> exists message,
        fst (normalize JSON_parse JSON_stringify raw) = inr message)
  /\ In msg_repair_failed (snd (normalize JSON_parse JSON_stringify raw)).
Proof.
  intros H0 H1 candidates. split; [apply candidates_braced|]. split; [|split].
  - intros before m after v Hc Hb Hm.
    rewrite normalize_fst, H0, H1. fold candidates.
    assert (F : firstParsed JSON_parse JSON_stringify candidates = Some (JSON_stringify v)).
    { apply firstParsed_some. exists before, m, after, v. auto. }
    now rewrite F.
  - intros Hall. rewrite normalize_fst, H0, H1. fold candidates.
    apply firstParsed_none in Hall. rewrite Hall. eauto.
  - unfold Api.normalize, getGroqCompletion, parseContent.
    rewrite H0, H1. fold candidates.
    destruct (firstParsed JSON_parse JSON_stringify candidates); simpl; auto 10.
Qed.

End NormalizerFacts.

(** ** The task route *)

Lemma json_null_dec (v : Json.json) : {v = Json.JNull} + {v <> Json.JNull}.
Proof. destruct v; [left; reflexivity | right; discriminate ..]. Qed.

Section RouteFacts.
Import JSStr Json Api.

Variable JSON_parse : string -> parsed.
Variable JSON_stringify : json -> string.

Lemma or_else_truthy (x : option json) (d : json) :
  truthy d = true -> truthy (or_else x d) = true.
Proof.
  intros Hd. destruct x as [v|]; simpl; [|exact Hd].
  destruct (truthy v) eqn:E; [exact E | exact Hd].
Qed.

Lemma or_else_absent (d : json) : or_else None d = d.
Proof. reflexivity. Qed.

(** What the callback of [map] builds from a task that is not [null]. *)
Lemma validateTask_eq (task : json) (index : nat) :
  task <> JNull ->
  validateTask task index
  = inl (task_record
           (or_else (field task "id") (JString ("task_" ++ of_nat (index + 1))))
           (or_else (field task "name") (JString ("Task " ++ of_nat (index + 1))))
           (or_else (field task "description")
                    (JString "No description provided"))
           (match field task "estimatedHours" with
            | Some (JNumber m e) => JNumber m e
            | _ => num 4
            end)
           (match field task "requiredSkills" with
            | Some (JArray items) => JArray items
            | _ => strings ["General"]
            end)).
Proof. destruct task; intros H; try reflexivity. contradiction. Qed.

Lemma validateTask_null (index : nat) :
  exists e, validateTask JNull index = inr e.
Proof. eexists; reflexivity. Qed.

Lemma validateTask_populated (task : json) (index : nat) (t : json) :
  validateTask task index = inl t -> populated t = true.
Proof.
  intros H. destruct (json_null_dec task) as [->|Hn].
  - destruct (validateTask_null index) as [e He]. congruence.
  - rewrite (validateTask_eq index Hn) in H. injection H as <-.
    unfold task_record, populated.
    destruct (field task "estimatedHours") as [[]|];
      destruct (field task "requiredSkills") as [[]|]; simpl;
      rewrite !or_else_truthy; reflexivity.
Qed.

Lemma mapTasks_populated (tasks : list json) (index : nat) (out : list json) :
  mapTasks tasks index = inl out -> forallb populated out = true.
Proof.
  revert index out; induction tasks as [|task rest IH]; intros index out H.
  - simpl in H. injection H as <-. reflexivity.
  - simpl in H. destruct (validateTask task index) as [t|e] eqn:Ev;
      [|discriminate].
    destruct (mapTasks rest (index + 1)) as [ts|e] eqn:Em; [|discriminate].
    injection H as <-. simpl.
    now rewrite (validateTask_populated _ _ Ev), (IH _ _ Em).
Qed.

(** [map] pairs the task at index [i] with the record built for index [i]. *)
Lemma mapTasks_nth (tasks : list json) (index : nat) (out : list json) :
  mapTasks tasks index = inl out ->
  forall i task, nth_error tasks i = Some task ->
  exists t, nth_error out i = Some t
            /\ validateTask task (index + i) = inl t.
Proof.
  revert index out; induction tasks as [|task0 rest IH]; intros index out H i task Hi.
  - destruct i; discriminate.
  - simpl in H. destruct (validateTask task0 index) as [t0|e] eqn:Ev;
      [|discriminate].
    destruct (mapTasks rest (index + 1)) as [ts|e] eqn:Em; [|discriminate].
    injection H as <-. destruct i as [|i]; simpl in Hi.
    + injection Hi as <-. exists t0. rewrite Nat.add_0_r. auto.
    + destruct (IH _ _ Em i task Hi) as (t & Ht & Hv).
      exists t. split; [exact Ht|].
      replace (index + S i) with (index + 1 + i) by lia. exact Hv.
Qed.

Lemma validatedTasks_populated (text : string) (tasks : list json) :
  validatedTasks JSON_parse text = inl tasks -> forallb populated tasks = true.
Proof.
  unfold validatedTasks. intros H.
  destruct (JSON_parse text) as [result|e]; [|discriminate].
  destruct result; simpl in H; try discriminate;
    try (injection H as <-; reflexivity);
    try (now apply (mapTasks_populated _ _ H)).
  destruct (lookup "tasks" props) as [[]|]; simpl in H;
    try (injection H as <-; reflexivity);
    now apply (mapTasks_populated _ _ H).
Qed.

(** C10 (as amended).  For a request with documents the route always
    answers with status 200 and a [tasks] array in which every record has the
    five fields [id], [name], [description], [estimatedHours] and
    [requiredSkills], the first three truthy, [estimatedHours] a number and
    [requiredSkills] an array.  A record is built from the task at the same
    index with the stated defaults.  When the completion fails the array is
    the fixed emergency one, and when the inner block throws it is the
    fixed fallback one; both are non-empty. *)
Theorem breakdown_tasks_populated (documents : option json)
    (completion : outcome string) :
  falsy documents = false ->
  (exists tasks rest,
      breakdownTasks JSON_parse JSON_stringify documents completion
        = Response 200 (JObject (("tasks", JArray tasks) :: rest))
      /\ forallb populated tasks = true
      /\ (forall message,
            fst (getGroqCompletion JSON_parse JSON_stringify completion)
              = inr message ->
            tasks = emergencyFallbackTasks)
      /\ (forall text e,
            fst (getGroqCompletion JSON_parse JSON_stringify completion)
              = inl text ->
            validatedTasks JSON_parse text = inr e ->
            tasks = fallbackTasks)
      /\ (forall text out,
            fst (getGroqCompletion JSON_parse JSON_stringify completion)
              = inl text ->
            validatedTasks JSON_parse text = inl out ->
            tasks = out))
  /\ emergencyFallbackTasks <> [] /\ fallbackTasks <> []
  /\ (forall all out i task,
        mapTasks all 0 = inl out -> nth_error all i = Some task ->
        exists id name description hours skills,
          nth_error out i
            = Some (task_record id name description hours skills)
          /\ id = or_else (field task "id") (JString ("task_" ++ of_nat (i + 1)))
          /\ name = or_else (field task "name")
                            (JString ("Task " ++ of_nat (i + 1)))
          /\ description = or_else (field task "description")
                                   (JString "No description provided")
          /\ hours = match field task "estimatedHours" with
                     | Some (JNumber m e) => JNumber m e
                     | _ => num 4
                     end
          /\ skills = match field task "requiredSkills" with
                      | Some (JArray items) => JArray items
                      | _ => strings ["General"]
                      end).
Proof.
  intros Hdoc. split; [|split; [discriminate|split; [discriminate|]]].
  - unfold breakdownTasks. rewrite Hdoc.
    destruct (fst (getGroqCompletion JSON_parse JSON_stringify completion))
      as [text|message].
    + destruct (validatedTasks JSON_parse text) as [out|e] eqn:Ev.
      * exists out, []. split; [reflexivity|].
        split; [now apply (validatedTasks_populated _ Ev)|].
        split; [discriminate|]. split.
        -- intros ? ? A B. injection A as <-. congruence.
        -- intros ? ? A B. injection A as <-. congruence.
      * exists fallbackTasks, []. split; [reflexivity|].
        split; [reflexivity|]. split; [discriminate|]. split.
        -- reflexivity.
        -- intros ? ? A B. injection A as <-. congruence.
    + exists emergencyFallbackTasks, [("error", JString message)].
      split; [reflexivity|]. split; [reflexivity|].
      split; [reflexivity|]. split; discriminate.
  - intros all out i task Hm Hi.
    destruct (mapTasks_nth _ _ Hm _ Hi) as (t & Ht & Hv). simpl in Hv.
    destruct (json_null_dec task) as [->|Hn].
    + destruct (validateTask_null i) as [e He]. congruence.
    + rewrite (validateTask_eq i Hn) in Hv. injection Hv as <-.
      do 5 eexists. split; [exact Ht|]. repeat split.
Qed.

End RouteFacts.

(** ** The repair pass *)

Section RepairFacts.
Import JSStr Regex Json Api.

(** *** Truncation to the braces *)

Lemma substring_skip (a t : string) (m : nat) :
  substring (String.length a) m (a ++ t) = substring 0 m t.
Proof. induction a as [|x a IH]; simpl; [reflexivity | exact IH]. Qed.

Lemma substring_none (n : nat) (s : string) : substring n 0 s = "".
Proof.
  revert n; induction s as [|c s IH]; intros [|n]; simpl; auto.
Qed.

Lemma indexOf_split (c : ascii) (s : string) (i : nat) :
  indexOf c s = Some i ->
  exists a t, s = a ++ String c t /\ String.length a = i.
Proof.
  revert i; induction s as [|x s IH]; intros i H; simpl in H; [discriminate|].
  destruct (Ascii.eqb_spec x c) as [->|].
  - injection H as <-. exists "", s. auto.
  - destruct (indexOf c s) as [k|]; [|discriminate]. injection H as <-.
    destruct (IH k eq_refl) as (a & t & -> & <-).
    exists (String x a), t. auto.
Qed.

Lemma lastIndexOf_split (c : ascii) (s : string) (j : nat) :
  lastIndexOf c s = Some j ->
  exists b t, s = b ++ String c t /\ String.length b = j.
Proof.
  revert j; induction s as [|x s IH]; intros j H; simpl in H; [discriminate|].
  destruct (lastIndexOf c s) as [k|].
  - injection H as <-. destruct (IH k eq_refl) as (b & t & -> & <-).
    exists (String x b), t. auto.
  - destruct (Ascii.eqb_spec x c) as [->|]; [|discriminate].
    injection H as <-. exists "", s. auto.
Qed.

Lemma lastIndexOf_lt (c : ascii) (s : string) (j : nat) :
  lastIndexOf c s = Some j -> j < String.length s.
Proof.
  intros H. destruct (lastIndexOf_split _ _ H) as (b & t & -> & <-).
  rewrite length_append. simpl. lia.
Qed.

Lemma lastIndexOf_app (c : ascii) (x y : string) :
  lastIndexOf c (x ++ y)
  = match lastIndexOf c y with
    | Some k => Some (String.length x + k)
    | None => lastIndexOf c x
    end.
Proof.
  induction x as [|a x IH]; simpl.
  - now destruct (lastIndexOf c y).
  - rewrite IH. destruct (lastIndexOf c y); [reflexivity|].
    reflexivity.
Qed.

Lemma lastIndexOf_end (c : ascii) (x : string) :
  lastIndexOf c (x ++ String c "") = Some (String.length x).
Proof.
  rewrite lastIndexOf_app. simpl. rewrite Ascii.eqb_refl.
  f_equal. lia.
Qed.

(** The truncation leaves the text as it is, or empties it, or cuts it
    down to a text from an opening to a closing brace. *)
Lemma slice_braces_cases (s : string) :
  slice_braces s = s \/ slice_braces s = ""
  \/ exists b, slice_braces s = String "{" (b ++ "}").
Proof.
  unfold slice_braces.
  destruct (indexOf "{" s) as [i|] eqn:Hi; [|now left].
  destruct (lastIndexOf "}" s) as [j|] eqn:Hj; [|now left].
  right.
  destruct (indexOf_split _ _ Hi) as (a & t & -> & <-).
  rewrite lastIndexOf_app in Hj. simpl in Hj.
  destruct (lastIndexOf "}" t) as [k|] eqn:Hk.
  - right. injection Hj as <-.
    destruct (lastIndexOf_split _ _ Hk) as (b & u & -> & <-).
    exists b. unfold slice.
    replace (String.length a + S (String.length b) + 1 - String.length a)
      with (S (String.length (b ++ "}"))) by (rewrite length_append; simpl; lia).
    rewrite substring_skip. simpl. f_equal.
    rewrite <- (substring_take (b ++ "}") u) at 2.
    now rewrite append_assoc.
  - left. apply lastIndexOf_lt in Hj. unfold slice.
    replace (j + 1 - String.length a) with 0 by lia.
    apply substring_none.
Qed.

Lemma slice_braces_braced (b : string) :
  slice_braces (String "{" (b ++ "}")) = String "{" (b ++ "}").
Proof.
  unfold slice_braces. simpl. rewrite lastIndexOf_end. unfold slice.
  replace (S (String.length b) + 1 - 0)
    with (String.length (String "{" (b ++ "}")))
    by (simpl; rewrite length_append; simpl; lia).
  rewrite <- (append_nil_r (String "{" (b ++ "}"))) at 2.
  apply substring_take.
Qed.

Lemma slice_braces_idempotent (s : string) :
  slice_braces (slice_braces s) = slice_braces s.
Proof.
  destruct (slice_braces_cases s) as [H|[H|[b H]]]; rewrite H.
  - exact H.
  - reflexivity.
  - apply slice_braces_braced.
Qed.

(** *** Collapsing white space *)

Lemma trimStart_length (t : string) :
  String.length (trimStart t) <= String.length t.
Proof.
  induction t as [|a t IH]; simpl; [lia|].
  destruct (is_space a); simpl; lia.
Qed.

Lemma star_spaces (fuel : nat) (t : string) (cs : caps) :
  String.length t <= fuel ->
  star_loop (run Sp) k_done fuel t cs = Some (trimStart t, cs).
Proof.
  revert t; induction fuel as [|f IH]; intros t Hl.
  - destruct t; [reflexivity | simpl in Hl; lia].
  - destruct t as [|a t]; [reflexivity|].
    simpl. unfold in_class. simpl. rewrite orb_false_r.
    destruct (is_space a); [|reflexivity].
    destruct (String.length t <? S (String.length t)) eqn:E.
    + rewrite IH by (simpl in Hl; lia). reflexivity.
    + apply Nat.ltb_ge in E. lia.
Qed.

Lemma exec_spaces (a : ascii) (t : string) :
  exec_here re_spaces (String a t)
  = if is_space a
    then Some (S (String.length t - String.length (trimStart t)), [])
    else None.
Proof.
  unfold exec_here, re_spaces.
  assert (E : run (Plus Sp) (String a t) [] k_done
              = if is_space a then Some (trimStart t, []) else None).
  { simpl. unfold in_class. simpl. rewrite orb_false_r.
    destruct (is_space a); [|reflexivity]. apply star_spaces. lia. }
  rewrite E. destruct (is_space a); [|reflexivity].
  change (String.length (String a t)) with (S (String.length t)).
  pose proof (trimStart_length t). f_equal. f_equal. lia.
Qed.

Lemma replace_go_skip (r : regex) (tpl : list titem) (pre post : string) :
  replace_go r tpl (pre ++ post) (String.length pre) = replace_go r tpl post 0.
Proof. induction pre as [|c pre IH]; simpl; [reflexivity | exact IH]. Qed.

Lemma trimStart_split (t : string) :
  exists pre, t = pre ++ trimStart t
              /\ String.length pre = String.length t - String.length (trimStart t).
Proof.
  induction t as [|a t (pre & E & L)].
  - exists "". split; reflexivity.
  - change (trimStart (String a t))
      with (if is_space a then trimStart t else String a t).
    change (String.length (String a t)) with (S (String.length t)).
    destruct (is_space a).
    + exists (String a pre). split.
      * simpl. now rewrite <- E.
      * change (String.length (String a pre)) with (S (String.length pre)).
        pose proof (trimStart_length t). lia.
    + exists "". split; [reflexivity|].
      change (String.length (String a t)) with (S (String.length t)).
      change (String.length "") with 0. lia.
Qed.

(** The replacement of [/\s+/g] by a blank, as a recursion on the text. *)
Lemma collapse_nil : replace_all re_spaces [TLit " "] "" = "".
Proof. reflexivity. Qed.

Lemma collapse_cons (a : ascii) (t : string) :
  replace_all re_spaces [TLit " "] (String a t)
  = if is_space a
    then String " " (replace_all re_spaces [TLit " "] (trimStart t))
    else String a (replace_all re_spaces [TLit " "] t).
Proof.
  unfold replace_all. simpl replace_go. rewrite exec_spaces.
  destruct (is_space a); [|reflexivity].
  destruct (trimStart_split t) as (pre & E & L).
  rewrite <- L. rewrite E at 1. rewrite replace_go_skip. reflexivity.
Qed.

Lemma trimStart_clean (t : string) : starts_clean (trimStart t) = true.
Proof.
  induction t as [|a t IH]; simpl; [reflexivity|].
  destruct (is_space a) eqn:E; [exact IH | simpl; now rewrite E].
Qed.

Lemma trimStart_id (t : string) : starts_clean t = true -> trimStart t = t.
Proof.
  destruct t as [|a t]; simpl; [reflexivity|].
  intros H. apply negb_true_iff in H. now rewrite H.
Qed.

Lemma collapse_head (s : string) :
  starts_clean s = true ->
  starts_clean (replace_all re_spaces [TLit " "] s) = true.
Proof.
  destruct s as [|a t]; [reflexivity|]. simpl. intros H.
  rewrite collapse_cons. apply negb_true_iff in H. rewrite H. simpl.
  now rewrite H.
Qed.

Lemma collapsed_cons (a : ascii) (t : string) :
  collapsed (String a t)
  = (if is_space a then Ascii.eqb a " " && starts_clean t else true)
    && collapsed t.
Proof. reflexivity. Qed.

Lemma collapse_collapsed_upto (n : nat) (s : string) :
  String.length s <= n ->
  collapsed (replace_all re_spaces [TLit " "] s) = true.
Proof.
  revert s; induction n as [|n IH]; intros s Hl.
  - destruct s; [reflexivity | simpl in Hl; lia].
  - destruct s as [|a t]; [reflexivity|]. simpl in Hl.
    rewrite collapse_cons. destruct (is_space a) eqn:E.
    + rewrite collapsed_cons. simpl is_space. simpl Ascii.eqb.
      rewrite collapse_head by apply trimStart_clean. simpl.
      apply IH. pose proof (trimStart_length t). lia.
    + rewrite collapsed_cons, E. simpl. apply IH. lia.
Qed.

Lemma collapse_collapsed (s : string) :
  collapsed (replace_all re_spaces [TLit " "] s) = true.
Proof. apply (collapse_collapsed_upto (n := String.length s)). lia. Qed.

Lemma collapse_fixed (s : string) :
  collapsed s = true -> replace_all re_spaces [TLit " "] s = s.
Proof.
  induction s as [|a t IH]; [reflexivity|].
  rewrite collapsed_cons, collapse_cons. intros H.
  apply andb_true_iff in H as [H1 H2].
  destruct (is_space a).
  - apply andb_true_iff in H1 as [Ha Hc].
    apply Ascii.eqb_eq in Ha. subst a.
    rewrite (trimStart_id _ Hc). now rewrite IH.
  - now rewrite IH.
Qed.

Lemma collapsed_tail (a : ascii) (t : string) :
  collapsed (String a t) = true -> collapsed t = true.
Proof. rewrite collapsed_cons. intros H. now apply andb_true_iff in H. Qed.

Lemma collapsed_trimStart (s : string) :
  collapsed s = true -> collapsed (trimStart s) = true.
Proof.
  induction s as [|a t IH]; [reflexivity|]. intros H. simpl.
  destruct (is_space a); [apply IH; now apply collapsed_tail in H | exact H].
Qed.

Lemma trimEnd_head (s : string) :
  starts_clean s = true -> starts_clean (trimEnd s) = true.
Proof.
  destruct s as [|a t]; [reflexivity|]. simpl. intros H.
  destruct (trimEnd t); [|simpl; exact H].
  apply negb_true_iff in H. rewrite H. simpl. now rewrite H.
Qed.

Lemma collapsed_trimEnd (s : string) :
  collapsed s = true -> collapsed (trimEnd s) = true.
Proof.
  induction s as [|a t IH]; [reflexivity|]. intros H.
  pose proof (collapsed_tail _ _ H) as Ht. specialize (IH Ht).
  rewrite collapsed_cons in H. apply andb_true_iff in H as [H1 _].
  simpl. destruct (trimEnd t) as [|b u] eqn:E.
  - destruct (is_space a) eqn:Ea; [reflexivity|].
    rewrite collapsed_cons, Ea. reflexivity.
  - rewrite collapsed_cons, IH, andb_true_r.
    destruct (is_space a); [|reflexivity].
    apply andb_true_iff in H1 as [Ha Hc]. rewrite Ha. simpl.
    pose proof (trimEnd_head _ Hc) as Hh. rewrite E in Hh. exact Hh.
Qed.

Lemma trimEnd_idempotent (s : string) : trimEnd (trimEnd s) = trimEnd s.
Proof.
  induction s as [|a t IH]; [reflexivity|]. simpl.
  destruct (trimEnd t) as [|b u] eqn:E.
  - destruct (is_space a) eqn:Ea; [reflexivity|]. simpl. now rewrite Ea.
  - simpl. simpl in IH. rewrite IH. reflexivity.
Qed.

Lemma trim_idempotent (s : string) : trim (trim s) = trim s.
Proof.
  unfold trim.
  rewrite (trimStart_id (trimEnd (trimStart s)))
    by (apply trimEnd_head, trimStart_clean).
  apply trimEnd_idempotent.
Qed.

Lemma clean_whitespace_idempotent (s : string) :
  clean_whitespace (clean_whitespace s) = clean_whitespace s.
Proof.
  unfold clean_whitespace.
  rewrite (collapse_fixed (trim (replace_all re_spaces [TLit " "] s))).
  - apply trim_idempotent.
  - unfold trim. apply collapsed_trimEnd, collapsed_trimStart,
      collapse_collapsed.
Qed.

(** C5 (as amended).  The truncation to the braces and the final white
    space stage are idempotent; and a text that parses is never handed to
    the repair pass, since the first stage answers for it. *)
Theorem repair_idempotent_stages :
  (forall s, slice_braces (slice_braces s) = slice_braces s)
  /\ (forall s, clean_whitespace (clean_whitespace s) = clean_whitespace s)
  /\ (forall (JSON_parse : string -> parsed) (JSON_stringify : json -> string)
             (raw : string) (v : json),
        JSON_parse (trim raw) = inl v ->
        fst (normalize JSON_parse JSON_stringify raw) = inl (JSON_stringify v)).
Proof.
  split; [exact slice_braces_idempotent|].
  split; [exact clean_whitespace_idempotent|].
  intros P S raw v H. rewrite normalize_fst, H. reflexivity.
Qed.

(** C4.  Of the four replacements for a missing comma only the one between
    two objects keeps both brackets: the other three put the comma in the
    place of the closing bracket. *)
Theorem missing_comma_replacements :
  repairJSON (q "{'a':[{'x':1} {'y':2}]}") = q "{'a':[{'x':1},{'y':2}]}"
  /\ repairJSON (q "{'rows':[[1,2][3,4]]}") = q "{'rows':[[1,2,[3,4]]}"
  /\ repairJSON (q "{'a':[1]{'b':2}}") = q "{'a':[1,{'b':2}}"
  /\ repairJSON (q "{'a':{'x':1}[2]}") = q "{'a':{'x':1,[2]}".
Proof. repeat split; vm_compute; reflexivity. Qed.

End RepairFacts.

(** ** Examples, run with the reference reader and printer *)

Section Examples.
Import JSStr Regex Json Api.

Lemma valid_json_short_circuits_witness :
  let raw := q " {'a':[1,2.5,true]} " in
  let v := JObject [("a", JArray [JNumber 1 0; JNumber 25 (-1); JBool true])] in
  parse (trim raw) = inl v
  /\ normalize parse stringify raw
     = (inl (q "{'a':[1,2.5,true]}"), ["Raw content before cleaning: " ++ raw])
  /\ parsedDocument parse stringify raw = inl v.
Proof.
  intros raw v.
  assert (H : parse (trim raw) = inl v) by (vm_compute; reflexivity).
  destruct (valid_json_short_circuits parse stringify raw H)
    as (E & _ & _ & R).
  split; [exact H|]. split; [exact E|].
  apply R. vm_compute. reflexivity.
Defined.

(** C1, counterexample.  The text [[1e400]] is valid JSON; its number is
    beyond the range of a double, so the serialisation that the first stage
    returns is [[null]], and what the callers read back is not the value
    that [JSON.parse] gave for the text. *)
Lemma reserialised_value_counterexample :
  let raw := "[1e400]" in
  parse (trim raw) = inl (JArray [JNumber 1 400])
  /\ normalize parse stringify64 raw
     = (inl "[null]", ["Raw content before cleaning: [1e400]"])
  /\ parsedDocument parse stringify64 raw = inl (JArray [JNull])
  /\ parsedDocument parse stringify64 raw <> parse (trim raw).
Proof.
  split; [vm_compute; reflexivity|]. split; [vm_compute; reflexivity|].
  split; [vm_compute; reflexivity|]. vm_compute. discriminate.
Qed.

(** C3, counterexample.  Two different raw texts raise the very same error,
    whose message does not contain the raw text; and the diagnostic it
    carries is that of the repaired text, not that of the candidate tried
    last. *)
Lemma error_carries_raw_text_counterexample :
  let message := "Groq API Error: Failed to parse JSON after all repair attempts: Unexpected end of JSON input" in
  "<b>{" <> "{"
  /\ fst (normalize parse stringify "<b>{") = inr message
  /\ fst (normalize parse stringify "{") = inr message
  /\ includes message "<b>{" = false
  /\ fst (normalize parse stringify "{x y}{z}")
     = inr "Groq API Error: Failed to parse JSON after all repair attempts: Unexpected token x in JSON at position 1"
  /\ match_all jsonRegex (repairJSON (trim "{x y}{z}")) = ["{x y}"; "{z}"]
  /\ parse "{z}" = inr "Unexpected token z in JSON at position 1".
Proof.
  split; [discriminate|]. repeat split; vm_compute; reflexivity.
Qed.

Lemma normalize_raises_iff_witness :
  fst (normalize parse stringify "{")
  = inr "Groq API Error: Failed to parse JSON after all repair attempts: Unexpected end of JSON input".
Proof.
  apply (proj2 (normalize_raises_iff parse stringify "{" _)).
  exists "Unexpected end of JSON input", "Unexpected end of JSON input".
  split; [vm_compute; reflexivity|]. split; [vm_compute; reflexivity|].
  split; [|reflexivity].
  replace (match_all jsonRegex (repairJSON (trim "{"))) with (@nil string)
    by (vm_compute; reflexivity).
  constructor.
Defined.

(** C6, counterexample.  The pattern of the source takes an object with two
    levels of nesting as one candidate, where a pattern with one level of
    nesting finds the object inside it; the result is the former. *)
Lemma extraction_one_level_counterexample :
  let raw := q "{'a':{'b':{'c':1}}}{'d':1}" in
  let repaired := repairJSON (trim raw) in
  repaired = q "{'a':{'b':{'c':1}}},{'d':1}"
  /\ rejected parse (trim raw) /\ rejected parse repaired
  /\ match_all jsonRegex repaired = [q "{'a':{'b':{'c':1}}}"; q "{'d':1}"]
  /\ match_all oneLevelRegex repaired = [q "{'b':{'c':1}}"; q "{'d':1}"]
  /\ fst (normalize parse stringify raw) = inl (q "{'a':{'b':{'c':1}}}")
  /\ firstParsed parse stringify (match_all oneLevelRegex repaired)
     = Some (q "{'b':{'c':1}}").
Proof.
  split; [vm_compute; reflexivity|].
  split; [eexists; vm_compute; reflexivity|].
  split; [eexists; vm_compute; reflexivity|].
  repeat split; vm_compute; reflexivity.
Qed.

Lemma extraction_returns_first_parsable_witness :
  let raw := q "{x y}{'a':1}" in
  match_all jsonRegex (repairJSON (trim raw)) = ["{x y}"; q "{'a':1}"]
  /\ rejected parse "{x y}"
  /\ fst (normalize parse stringify raw) = inl (q "{'a':1}").
Proof.
  intros raw.
  assert (R : rejected parse "{x y}") by (eexists; vm_compute; reflexivity).
  split; [vm_compute; reflexivity|]. split; [exact R|].
  refine (proj1 (proj2 (@extraction_returns_first_parsable parse stringify raw
                          "Unexpected token x in JSON at position 1"
                          "Unexpected token x in JSON at position 1" _ _))
                ["{x y}"] (q "{'a':1}") [] (JObject [("a", JNumber 1 0)])
                _ _ _).
  - vm_compute; reflexivity.
  - vm_compute; reflexivity.
  - vm_compute; reflexivity.
  - constructor; [exact R | constructor].
  - vm_compute; reflexivity.
Defined.

(** C5, counterexample.  With two trailing commas the pass removes one at
    each application; and it breaks a valid text whose string value holds a
    colon. *)
Lemma repair_idempotent_counterexample :
  repairJSON (q "{'a':1,,}") = q "{'a':1,}"
  /\ repairJSON (repairJSON (q "{'a':1,,}")) = q "{'a':1}"
  /\ fix_trailing_commas (fix_trailing_commas (q "{'a':1,,}"))
     <> fix_trailing_commas (q "{'a':1,,}")
  /\ parse (q "{'note':'ratio 1:2'}")
     = inl (JObject [("note", JString "ratio 1:2")])
  /\ repairJSON (q "{'note':'ratio 1:2'}") = q "{'note':'ratio '1':2'}"
  /\ rejected parse (repairJSON (q "{'note':'ratio 1:2'}")).
Proof.
  split; [vm_compute; reflexivity|]. split; [vm_compute; reflexivity|].
  split; [vm_compute; discriminate|]. split; [vm_compute; reflexivity|].
  split; [vm_compute; reflexivity|]. eexists; vm_compute; reflexivity.
Qed.

Lemma repair_idempotent_stages_witness :
  parse (trim (q "{'a':1}")) = inl (JObject [("a", JNumber 1 0)])
  /\ fst (normalize parse stringify (q "{'a':1}")) = inl (q "{'a':1}").
Proof.
  split; [vm_compute; reflexivity|].
  apply (proj2 (proj2 repair_idempotent_stages) parse stringify (q "{'a':1}")
           (JObject [("a", JNumber 1 0)])).
  vm_compute; reflexivity.
Defined.

(** C10, counterexample.  A name that is a number passes through: the
    record is populated, but its [name] is no string. *)
Lemma breakdown_tasks_types_counterexample :
  let r := breakdownTasks parse stringify (Some (JObject [("srs", JString "x")]))
             (inl (q "[{'name':5}]")) in
  r = Response 200
        (JObject [("tasks",
                   JArray [task_record (JString "task_1") (JNumber 5 0)
                             (JString "No description provided")
                             (JNumber 4 0) (strings ["General"])])])
  /\ well_typed (task_record (JString "task_1") (JNumber 5 0)
                   (JString "No description provided")
                   (JNumber 4 0) (strings ["General"])) = false.
Proof. split; vm_compute; reflexivity. Qed.

Lemma breakdown_tasks_populated_witness :
  let documents := Some (JObject [("srs", JString "x")]) in
  falsy documents = false
  /\ exists tasks rest,
       breakdownTasks parse stringify documents (inl (q "{'tasks':[{}]}"))
         = Response 200 (JObject (("tasks", JArray tasks) :: rest))
       /\ forallb populated tasks = true.
Proof.
  intros documents. split; [reflexivity|].
  destruct (proj1 (@breakdown_tasks_populated parse stringify documents
                     (inl (q "{'tasks':[{}]}")) eq_refl))
    as (tasks & rest & E & Hp & _).
  exists tasks, rest. split; [exact E | exact Hp].
Defined.

End Examples.

(* ================================================================== *)
(** * Further properties of the code *)
(* ================================================================== *)

(** ** Diagram templates *)

Section TemplateFacts.
Import JSStr Json Api ApiRoutes Viewer.

Lemma lower_char_idempotent (c : ascii) : lower_char (lower_char c) = lower_char c.
Proof. destruct c as [[] [] [] [] [] [] [] []]; vm_compute; reflexivity. Qed.

Lemma toLowerCase_idempotent (s : string) :
  toLowerCase (toLowerCase s) = toLowerCase s.
Proof.
  induction s as [|c s IH]; simpl; [reflexivity|].
  now rewrite lower_char_idempotent, IH.
Qed.

Lemma split_lines_cons (s : string) : exists l ls, split_lines s = l :: ls.
Proof.
  induction s as [|c s (l & ls & E)]; simpl; [eauto|].
  destruct (Ascii.eqb c nl); [eauto|]. rewrite E. eauto.
Qed.

Lemma join_cons_cons (sep x y : string) (t : list string) :
  join sep (x :: y :: t) = x ++ sep ++ join sep (y :: t).
Proof. reflexivity. Qed.

Lemma join_cons_char (sep : string) (c : ascii) (l : string) (ls : list string) :
  join sep (String c l :: ls) = String c (join sep (l :: ls)).
Proof. destruct ls; reflexivity. Qed.

Lemma join_split (s : string) : join_lines (split_lines s) = s.
Proof.
  unfold join_lines. induction s as [|c s IH]; [reflexivity|]. simpl.
  destruct (split_lines_cons s) as (l & ls & E). rewrite E in *.
  destruct (Ascii.eqb_spec c nl) as [->|].
  - rewrite join_cons_cons, IH. reflexivity.
  - rewrite join_cons_char, IH. reflexivity.
Qed.

(** No line of a split text holds a line feed. *)
Lemma split_lines_no_nl (s : string) :
  Forall (fun l => indexOf nl l = None) (split_lines s).
Proof.
  induction s as [|c s IH]; simpl.
  - constructor; [reflexivity | constructor].
  - destruct (Ascii.eqb c nl) eqn:E.
    + constructor; [reflexivity | exact IH].
    + destruct (split_lines s) as [|l ls]; inversion IH; subst.
      * constructor; [simpl; now rewrite E | constructor].
      * constructor; [simpl; rewrite E; now rewrite H1 | assumption].
Qed.

(** X1.  Whatever the description and the type, the generated code opens
    with [@startuml] and the title line, closes with [@enduml], and is
    therefore handed on unchanged by the delimiting step of the viewer. *)
Theorem generated_code_is_delimited (description type : string) :
  let code := generatePlantUMLCode description type in
  (exists middle,
      code = "@startuml
title " ++ firstLine description ++ middle ++ "

@enduml")
  /\ includes code startuml = true
  /\ includes code enduml = true
  /\ delimit code = code.
Proof.
  intros code.
  assert (E : exists middle,
             code = tpl_title ++ firstLine description ++ middle ++ plain_foot).
  { unfold code, generatePlantUMLCode.
    destruct (String.eqb (toLowerCase type) "usecase").
    { exists (usecase_head
                ++ join_lines (map usecaseLine (restLines description))
                ++ "
}

' Relationships
User --> (Login)
User --> (View Dashboard)
Admin --> (Manage Users)
Admin --> (Configure System)").
      rewrite !append_assoc. reflexivity. }
    destruct (String.eqb (toLowerCase type) "sequence").
    { exists (sequence_head ++ join_lines (restLines description)).
      rewrite !append_assoc. reflexivity. }
    destruct (String.eqb (toLowerCase type) "class").
    { exists (class_head ++ join_lines (restLines description)).
      rewrite !append_assoc. reflexivity. }
    destruct (String.eqb (toLowerCase type) "activity").
    { exists (activity_head ++ join_lines (restLines description) ++ "
stop").
      rewrite !append_assoc. reflexivity. }
    destruct (String.eqb (toLowerCase type) "component").
    { exists (component_head ++ join_lines (restLines description)).
      rewrite !append_assoc. reflexivity. }
    exists (default_head ++ join_lines (restLines description)).
    rewrite !append_assoc. reflexivity. }
  destruct E as [middle E].
  assert (H1 : includes code startuml = true).
  { rewrite E. apply includes_app_l. reflexivity. }
  assert (H2 : includes code enduml = true).
  { rewrite E. apply includes_app_r, includes_app_r, includes_app_r.
    reflexivity. }
  split; [exists middle; exact E|]. split; [exact H1|]. split; [exact H2|].
  rewrite delimit_eq, H1, H2. simpl. apply append_nil_r.
Qed.

(** The type is matched without regard to letter case. *)
Theorem generated_code_ignores_case (description type : string) :
  generatePlantUMLCode description (toLowerCase type)
  = generatePlantUMLCode description type.
Proof.
  unfold generatePlantUMLCode. now rewrite toLowerCase_idempotent.
Qed.

(** X2.  No line of the description is lost: the first line, which holds no
    line feed, goes into the title, and for every type but the use case
    the other lines stand verbatim between a head and a foot that depend
    on the type only; title line and other lines joined by line feeds give
    the description back. *)
Theorem generated_code_keeps_lines (type : string) :
  toLowerCase type <> "usecase" ->
  exists head foot, forall description,
    generatePlantUMLCode description type
    = "@startuml
title " ++ firstLine description ++ head
        ++ join_lines (restLines description) ++ foot
    /\ join_lines (firstLine description :: restLines description) = description
    /\ indexOf nl (firstLine description) = None.
Proof.
  intros Hu.
  assert (R : forall d, join_lines (firstLine d :: restLines d) = d
                        /\ indexOf nl (firstLine d) = None).
  { intros d. unfold firstLine, restLines.
    pose proof (join_split d) as J. pose proof (split_lines_no_nl d) as N.
    destruct (split_lines_cons d) as (l & ls & E). rewrite E in *. simpl.
    split; [exact J | now inversion N]. }
  unfold generatePlantUMLCode.
  destruct (String.eqb_spec (toLowerCase type) "usecase"); [contradiction|].
  destruct (String.eqb (toLowerCase type) "sequence").
  { exists sequence_head, plain_foot. intros d. split; [|apply R].
    rewrite !append_assoc. reflexivity. }
  destruct (String.eqb (toLowerCase type) "class").
  { exists class_head, plain_foot. intros d. split; [|apply R].
    rewrite !append_assoc. reflexivity. }
  destruct (String.eqb (toLowerCase type) "activity").
  { exists activity_head, activity_foot. intros d. split; [|apply R].
    rewrite !append_assoc. reflexivity. }
  destruct (String.eqb (toLowerCase type) "component").
  { exists component_head, plain_foot. intros d. split; [|apply R].
    rewrite !append_assoc. reflexivity. }
  exists default_head, plain_foot. intros d. split; [|apply R].
  rewrite !append_assoc. reflexivity.
Qed.

Lemma generated_code_keeps_lines_witness :
  toLowerCase "Sequence" <> "usecase"
  /\ exists head foot,
       generatePlantUMLCode "Checkout
User -> Frontend: pay" "Sequence"
       = "@startuml
title Checkout" ++ head ++ "User -> Frontend: pay" ++ foot.
Proof.
  assert (H : toLowerCase "Sequence" <> "usecase") by discriminate.
  split; [exact H|].
  destruct (generated_code_keeps_lines "Sequence" H) as (head & foot & E).
  exists head, foot.
  exact (proj1 (E "Checkout
User -> Frontend: pay")).
Defined.

End TemplateFacts.

(** ** The staged parse, once more *)

Section NormalizerMore.
Import JSStr Regex Json Api.

Variable JSON_parse : string -> parsed.
Variable JSON_stringify : json -> string.

(** X3.  Whatever [getGroqCompletion] returns is the serialisation of a
    value that [JSON.parse] produced, from the trimmed text, from the
    repaired text or from one of the extracted candidates. *)
Theorem normalize_returns_serialisation (raw r : string) :
  fst (normalize JSON_parse JSON_stringify raw) = inl r ->
  exists m v,
    JSON_parse m = inl v /\ r = JSON_stringify v
    /\ (m = trim raw \/ m = repairJSON (trim raw)
        \/ In m (match_all jsonRegex (repairJSON (trim raw)))).
Proof.
  rewrite normalize_fst.
  destruct (JSON_parse (trim raw)) as [v|d0] eqn:E0.
  { intros H. injection H as <-. exists (trim raw), v. auto. }
  destruct (JSON_parse (repairJSON (trim raw))) as [v|d] eqn:E1.
  { intros H. injection H as <-. exists (repairJSON (trim raw)), v. auto. }
  destruct (firstParsed _ _ _) as [x|] eqn:F; [|discriminate].
  intros H. injection H as <-.
  apply firstParsed_some in F as (before & m & after & v & Hc & _ & Hm & ->).
  exists m, v. split; [exact Hm|]. split; [reflexivity|].
  right. right. rewrite Hc. apply in_or_app. right. now left.
Qed.

(** X4.  When the trimmed text does not parse and the repaired text does,
    the second stage answers with the serialisation of the repaired text's
    value; the console shows the repair and not the extraction. *)
Theorem repaired_text_answers (raw d0 : string) (v : json) :
  JSON_parse (trim raw) = inr d0 ->
  JSON_parse (repairJSON (trim raw)) = inl v ->
  normalize JSON_parse JSON_stringify raw
    = (inl (JSON_stringify v),
       ["Raw content before cleaning: " ++ raw; msg_initial_failed;
        "Repaired content: " ++ repairJSON (trim raw)])
  /\ ~ In msg_repair_failed (snd (normalize JSON_parse JSON_stringify raw)).
Proof.
  intros H0 H1.
  assert (E : normalize JSON_parse JSON_stringify raw
    = (inl (JSON_stringify v),
       ["Raw content before cleaning: " ++ raw; msg_initial_failed;
        "Repaired content: " ++ repairJSON (trim raw)])).
  { unfold normalize, getGroqCompletion, parseContent. rewrite H0, H1.
    reflexivity. }
  split; [exact E|]. rewrite E. simpl.
  intros [A|[A|[A|[]]]]; discriminate A.
Qed.

(** X5.  A completion that is empty or white space only raises the error,
    with the diagnostic [JSON.parse] gives for the empty text. *)
Theorem blank_completion_raises (raw d : string) :
  trim raw = "" ->
  JSON_parse "" = inr d ->
  fst (normalize JSON_parse JSON_stringify raw)
  = inr ("Groq API Error: "
           ++ "Failed to parse JSON after all repair attempts: " ++ d).
Proof.
  intros Hb Hd. rewrite normalize_fst, Hb.
  replace (repairJSON "") with "" by (vm_compute; reflexivity).
  rewrite Hd.
  replace (match_all jsonRegex "") with (@nil string) by (vm_compute; reflexivity).
  reflexivity.
Qed.

(** *** The task route *)

Lemma populated_shape (t : json) :
  populated t = true ->
  exists id name description m e items,
    t = task_record id name description (JNumber m e) (JArray items)
    /\ truthy id = true /\ truthy name = true /\ truthy description = true.
Proof.
  intros H. destruct t as [| | | | |props]; try (simpl in H; discriminate).
  destruct props as [|[k1 id] [|[k2 name] [|[k3 d] [|[k4 h] [|[k5 sk] [|]]]]]];
    try (simpl in H; discriminate).
  all: destruct h; try (simpl in H; discriminate).
  all: destruct sk; try (simpl in H; discriminate).
  unfold populated in H.
  repeat (apply andb_true_iff in H as [H ?]).
  repeat match goal with
         | E : String.eqb _ _ = true |- _ => apply String.eqb_eq in E; subst
         end.
  do 6 eexists. split; [reflexivity|]. auto.
Qed.

Lemma validateTask_fixed (t : json) (index : nat) :
  populated t = true -> validateTask t index = inl t.
Proof.
  intros H.
  destruct (populated_shape _ H)
    as (id & name & d & m & e & items & -> & Hi & Hn & Hd).
  unfold validateTask, task_record. simpl. unfold or_else.
  now rewrite Hi, Hn, Hd.
Qed.

Lemma mapTasks_fixed (tasks : list json) (index : nat) :
  forallb populated tasks = true -> mapTasks tasks index = inl tasks.
Proof.
  revert index; induction tasks as [|t rest IH]; intros index H;
    [reflexivity|].
  simpl in H. apply andb_true_iff in H as [Ht Hr]. simpl.
  now rewrite (@validateTask_fixed t index Ht), (IH _ Hr).
Qed.

(** X6.  Validation changes nothing in a record of the shape the route
    itself sends: exactly the five properties [id], [name], [description],
    [estimatedHours] and [requiredSkills], in this order, the first three
    truthy, [estimatedHours] a number and [requiredSkills] an array.  When
    the model answers with an array of such records, the route sends
    exactly that array. *)
Theorem populated_tasks_are_kept (documents : option json)
    (completion : outcome string) (text : string) (tasks : list json) :
  falsy documents = false ->
  fst (getGroqCompletion JSON_parse JSON_stringify completion) = inl text ->
  JSON_parse text = inl (JArray tasks) ->
  forallb populated tasks = true ->
  breakdownTasks JSON_parse JSON_stringify documents completion
  = Response 200 (JObject [("tasks", JArray tasks)]).
Proof.
  intros Hd Hc Hp Hf. unfold breakdownTasks, validatedTasks.
  now rewrite Hd, Hc, Hp, (@mapTasks_fixed tasks 0 Hf).
Qed.

Lemma mapTasks_null (tasks : list json) (index : nat) :
  In JNull tasks -> exists e, mapTasks tasks index = inr e.
Proof.
  revert index; induction tasks as [|t rest IH]; intros index H; [contradiction|].
  simpl. destruct H as [->|H].
  - eexists; reflexivity.
  - destruct (validateTask t index); [|eauto].
    destruct (IH (index + 1) H) as [e ->]. eauto.
Qed.

Lemma mapTasks_length (tasks : list json) (index : nat) :
  ~ In JNull tasks ->
  exists out, mapTasks tasks index = inl out
              /\ List.length out = List.length tasks.
Proof.
  revert index; induction tasks as [|t rest IH]; intros index H.
  - exists []. auto.
  - simpl. assert (Ht : t <> JNull) by (intros ->; apply H; now left).
    rewrite (validateTask_eq index Ht).
    destruct (IH (index + 1)) as (out & -> & L);
      [intros A; apply H; now right|].
    eexists. split; [reflexivity|]. simpl. now rewrite L.
Qed.

(** X7.  The validation of the tasks is all or nothing: one [null] among
    the tasks of the model makes the route send the two fixed fallback
    tasks in place of all of them; without a [null] it sends as many
    records as the model gave tasks. *)
Theorem null_task_discards_all (documents : option json)
    (completion : outcome string) (text : string) (tasks : list json) :
  falsy documents = false ->
  fst (getGroqCompletion JSON_parse JSON_stringify completion) = inl text ->
  JSON_parse text = inl (JArray tasks) ->
  (In JNull tasks ->
   breakdownTasks JSON_parse JSON_stringify documents completion
   = Response 200 (JObject [("tasks", JArray fallbackTasks)]))
  /\ (~ In JNull tasks ->
      exists out,
        breakdownTasks JSON_parse JSON_stringify documents completion
        = Response 200 (JObject [("tasks", JArray out)])
        /\ List.length out = List.length tasks).
Proof.
  intros Hd Hc Hp. unfold breakdownTasks, validatedTasks.
  rewrite Hd, Hc, Hp. split; intros H.
  - destruct (@mapTasks_null tasks 0 H) as [e ->]. reflexivity.
  - destruct (@mapTasks_length tasks 0 H) as (out & -> & L). eauto.
Qed.

(** X8.  When the model answers with something that is neither an array
    nor an object with an array under [tasks], the route sends the single
    task "Review Requirements"; when it answers [null], reading [tasks]
    throws and the route sends the two fixed fallback tasks. *)
Theorem missing_tasks_give_fixed_tasks (documents : option json)
    (completion : outcome string) (text : string) (result : json) :
  falsy documents = false ->
  fst (getGroqCompletion JSON_parse JSON_stringify completion) = inl text ->
  JSON_parse text = inl result ->
  (forall items, result <> JArray items) ->
  (forall items, field result "tasks" <> Some (JArray items)) ->
  breakdownTasks JSON_parse JSON_stringify documents completion
  = Response 200
      (JObject [("tasks",
                 JArray (match result with
                         | JNull => fallbackTasks
                         | _ => [reviewTask]
                         end))]).
Proof.
  intros Hd Hc Hp Ha Ht. unfold breakdownTasks, validatedTasks.
  rewrite Hd, Hc, Hp. unfold field in Ht.
  destruct result as [| | | |items|props]; try reflexivity.
  - exfalso. now apply (Ha items).
  - simpl in Ht |- *. destruct (lookup "tasks" props) as [[| | | |items|]|];
      try reflexivity.
    exfalso. now apply (Ht items).
Qed.

End NormalizerMore.

Section NormalizerMoreExamples.
Import JSStr Regex Json Api.

Lemma normalize_returns_serialisation_witness :
  exists m v,
    parse m = inl v /\ q "{'a':1}" = stringify v
    /\ (m = trim (q "{'a':1,}") \/ m = repairJSON (trim (q "{'a':1,}"))
        \/ In m (match_all jsonRegex (repairJSON (trim (q "{'a':1,}"))))).
Proof.
  apply (normalize_returns_serialisation parse stringify (q "{'a':1,}")).
  vm_compute. reflexivity.
Defined.

Lemma repaired_text_answers_witness :
  fst (normalize parse stringify ("```json
" ++ q "{'a': 1,}" ++ "
```")) = inl (q "{'a':1}").
Proof.
  refine (f_equal fst (proj1 (@repaired_text_answers parse stringify _
            "Unexpected token ` in JSON at position 0"
            (JObject [("a", JNumber 1 0)]) _ _)));
    vm_compute; reflexivity.
Defined.

Lemma blank_completion_raises_witness :
  fst (normalize parse stringify "  
 ")
  = inr "Groq API Error: Failed to parse JSON after all repair attempts: Unexpected end of JSON input".
Proof.
  apply (@blank_completion_raises parse stringify "  
 " "Unexpected end of JSON input"); vm_compute; reflexivity.
Defined.

Lemma populated_tasks_are_kept_witness :
  let text := q "[{'id':7,'name':'Build','description':'d','estimatedHours':0,'requiredSkills':[]}]" in
  breakdownTasks parse stringify (Some (JString "docs")) (inl text)
  = Response 200
      (JObject [("tasks",
                 JArray [task_record (JNumber 7 0) (JString "Build")
                           (JString "d") (JNumber 0 0) (JArray [])])]).
Proof.
  intros text.
  apply (@populated_tasks_are_kept parse stringify (Some (JString "docs"))
           (inl text) text); vm_compute; reflexivity.
Defined.

Lemma null_task_discards_all_witness :
  breakdownTasks parse stringify (Some (JString "docs"))
    (inl (q "[{'name':'Build'},null]"))
  = Response 200 (JObject [("tasks", JArray fallbackTasks)]).
Proof.
  refine (proj1 (@null_task_discards_all parse stringify
                   (Some (JString "docs")) (inl (q "[{'name':'Build'},null]"))
                   (q "[{'name':'Build'},null]")
                   [JObject [("name", JString "Build")]; JNull] _ _ _) _).
  - reflexivity.
  - vm_compute; reflexivity.
  - vm_compute; reflexivity.
  - right. now left.
Defined.

Lemma missing_tasks_give_fixed_tasks_witness :
  breakdownTasks parse stringify (Some (JString "docs"))
    (inl (q "{'plan':'later'}"))
  = Response 200 (JObject [("tasks", JArray [reviewTask])]).
Proof.
  apply (@missing_tasks_give_fixed_tasks parse stringify
           (Some (JString "docs")) (inl (q "{'plan':'later'}"))
           (q "{'plan':'later'}") (JObject [("plan", JString "later")])).
  - reflexivity.
  - vm_compute. reflexivity.
  - vm_compute. reflexivity.
  - intros items. discriminate.
  - intros items. discriminate.
Defined.

End NormalizerMoreExamples.

(** ** The viewer, once more *)

Section ViewerMore.
Import JSStr Viewer ViewerView.

Variable encode : string -> string + string.

Lemma effect_state (content title : option string) :
  fst (effect encode content title)
  = match fst (primary encode content) with
    | inl u => State false None u false
    | inr m =>
        State false (Some ("Failed to generate diagram: " ++ m))
          (match fst (fallback encode content title) with
           | Some u => u
           | None => ""
           end) true
    end.
Proof.
  unfold effect. destruct (primary encode content) as [[u|m] lg]; simpl;
    [reflexivity|].
  destruct (fallback encode content title) as [[u|] lg2]; reflexivity.
Qed.

(** X9.  Once the effect has run, the component shows the image exactly
    when the primary path succeeded.  Whenever the fallback was taken it
    shows the error text instead, so the fallback image is never displayed;
    and the spinner is gone in either case. *)
Theorem render_after_effect (content title : option string) :
  let st := fst (effect encode content title) in
  render st title
  = match fst (primary encode content) with
    | inl u =>
        Diagram u (title_or_default title)
          (match title with
           | Some t => if String.eqb t "" then None else Some t
           | None => None
           end)
    | inr m => ErrorBox ("Failed to generate diagram: " ++ m)
    end
  /\ (useFallback st = true -> exists message, render st title = ErrorBox message)
  /\ render st title <> Spinner.
Proof.
  intros st. unfold st. rewrite effect_state.
  destruct (fst (primary encode content)) as [u|m]; unfold render; simpl.
  - split; [reflexivity|]. split; [discriminate|].
    destruct title as [t|]; discriminate.
  - split; [reflexivity|]. split; [eauto | discriminate].
Qed.

(** X10.  The text of the fallback opens with [@startuml] and closes with
    [@enduml], so that the delimiting step would leave it as it is; and it
    does not depend on the letter case of the content. *)
Theorem fallback_text_is_delimited (title : option string) (content : string) :
  (exists middle,
      simplifyUml title content = startuml ++ middle ++ enduml)
  /\ String.prefix startuml (simplifyUml title content) = true
  /\ includes (simplifyUml title content) enduml = true
  /\ delimit (simplifyUml title content) = simplifyUml title content
  /\ simplifyUml title (toLowerCase content) = simplifyUml title content.
Proof.
  assert (H0 : exists middle,
             simplifyUml title content = startuml ++ middle ++ enduml).
  { exists (String nl "title " ++ title_or_default title ++ String nl ""
              ++ body_of (classify content) ++ String nl "").
    unfold simplifyUml. rewrite !append_assoc. reflexivity. }
  assert (H1 : String.prefix startuml (simplifyUml title content) = true).
  { destruct H0 as [middle ->]. apply prefix_app_self. }
  assert (H2 : includes (simplifyUml title content) enduml = true).
  { unfold simplifyUml. apply includes_app_r. reflexivity. }
  split; [exact H0|]. split; [exact H1|]. split; [exact H2|]. split.
  - rewrite delimit_eq, (includes_prefix _ _ H1), H2.
    change (simplifyUml title content ++ "" = simplifyUml title content).
    apply append_nil_r.
  - unfold simplifyUml, classify. now rewrite toLowerCase_idempotent.
Qed.

(** X11.  Delimiting twice is delimiting once. *)
Theorem delimit_idempotent (content : string) :
  delimit (delimit content) = delimit content.
Proof.
  assert (H1 : includes (delimit content) startuml = true).
  { rewrite delimit_eq. destruct (includes content startuml) eqn:E.
    - simpl. now apply includes_app_l.
    - apply includes_app_l. reflexivity. }
  assert (H2 : includes (delimit content) enduml = true).
  { rewrite delimit_eq. destruct (includes content enduml) eqn:E.
    - rewrite append_nil_r. now apply includes_app_r.
    - apply includes_app_r, includes_app_r. reflexivity. }
  rewrite (delimit_eq (delimit content)), H1, H2.
  change (delimit content ++ "" = delimit content). apply append_nil_r.
Qed.

End ViewerMore.

Section ViewerMoreExamples.
Import JSStr Viewer ViewerView.

Lemma render_after_effect_witness :
  render (fst (effect titled_encode (Some "participant A") None)) None
  = ErrorBox "Failed to generate diagram: no title".
Proof.
  destruct (proj1 (proj2 (render_after_effect titled_encode
                            (Some "participant A") None)) eq_refl)
    as [message E].
  rewrite E. vm_compute in E. injection E as <-. reflexivity.
Defined.

End ViewerMoreExamples.

(** ** The document and assignment routes *)

Section RouteMore.
Import JSStr Json Api ApiRoutes.

Variable JSON_parse : string -> parsed.
Variable JSON_stringify : json -> string.
Variable stackOf : string -> string.

Lemma lookup_obj_set (k : string) (v : json) (l : list (string * json)) :
  lookup k (obj_set k v l) = Some v.
Proof.
  induction l as [|[k' v'] l IH]; simpl.
  - now rewrite String.eqb_refl.
  - destruct (String.eqb k' k) eqn:E; simpl; rewrite E; [reflexivity | exact IH].
Qed.

Lemma lookup_obj_set_other (k k0 : string) (v : json) (l : list (string * json)) :
  k0 <> k -> lookup k0 (obj_set k v l) = lookup k0 l.
Proof.
  intros Hk. induction l as [|[k' v'] l IH]; simpl.
  - destruct (String.eqb_spec k k0); [congruence | reflexivity].
  - destruct (String.eqb_spec k' k) as [->|]; simpl.
    + destruct (String.eqb_spec k k0); [congruence | reflexivity].
    + destruct (String.eqb k' k0); [reflexivity | exact IH].
Qed.

Lemma obj_set_present (k : string) (v : json) (l : list (string * json)) :
  lookup k l = Some v -> obj_set k v l = l.
Proof.
  induction l as [|[k' v'] l IH]; simpl; [discriminate|].
  destruct (String.eqb k' k); intros H.
  - now injection H as ->.
  - now rewrite IH.
Qed.

Lemma generated_code_truthy (description type : string) :
  truthy (JString (generatePlantUMLCode description type)) = true.
Proof.
  unfold generatePlantUMLCode.
  repeat match goal with
         | |- context [if ?b then _ else _] => destruct b
         end; reflexivity.
Qed.

Lemma processDiagram_drawn (d d' : json) :
  processDiagram d = inl d' -> drawn d'.
Proof.
  unfold processDiagram. destruct (prop d "content") as [content|e];
    [|discriminate]. simpl.
  destruct (falsy content) eqn:F.
  - destruct (callGenerate _ _) as [code|e] eqn:G; [|discriminate]. simpl.
    intros H. injection H as <-.
    exists (obj_set "content" (JString code) (spread d)), (JString code).
    split; [reflexivity|]. split; [apply lookup_obj_set|].
    unfold callGenerate in G.
    destruct (receiver "type" "toLowerCase" _) as [t|]; [|discriminate].
    destruct (receiver "description" "split" _) as [ds|]; [|discriminate].
    simpl in G. injection G as <-. apply generated_code_truthy.
  - destruct content as [v|]; [|discriminate]. simpl in F.
    apply negb_false_iff in F. simpl. unfold or_else. rewrite F.
    intros H. injection H as <-.
    exists (obj_set "content" v (spread d)), v.
    split; [reflexivity|]. split; [apply lookup_obj_set | exact F].
Qed.

Lemma processDiagram_fixed (d : json) : drawn d -> processDiagram d = inl d.
Proof.
  intros (props & c & -> & L & T).
  unfold processDiagram, prop, spread, bind, falsy, or_else.
  rewrite L, T. simpl negb. cbv iota.
  now rewrite (obj_set_present _ _ L).
Qed.

Lemma mapDiagrams_drawn (ds ds' : list json) :
  mapDiagrams ds = inl ds' -> Forall drawn ds'.
Proof.
  revert ds'; induction ds as [|d ds IH]; intros ds' H; simpl in H.
  - injection H as <-. constructor.
  - destruct (processDiagram d) as [d'|] eqn:E; [|discriminate]. simpl in H.
    destruct (mapDiagrams ds) as [r|]; [|discriminate]. simpl in H.
    injection H as <-. constructor; [now apply (processDiagram_drawn d) | auto].
Qed.

Lemma mapDiagrams_fixed (ds : list json) :
  Forall drawn ds -> mapDiagrams ds = inl ds.
Proof.
  induction 1 as [|d ds Hd _ IH]; [reflexivity|]. simpl.
  now rewrite (processDiagram_fixed Hd), IH.
Qed.

Lemma mapDiagrams_fails (ds : list json) (d : json) (e : string) :
  In d ds -> processDiagram d = inr e -> exists e', mapDiagrams ds = inr e'.
Proof.
  induction ds as [|d0 ds IH]; intros H E; [contradiction|]. simpl.
  destruct H as [->|H].
  - rewrite E. eexists; reflexivity.
  - destruct (processDiagram d0); [|eexists; reflexivity]. simpl.
    destruct (IH H E) as [e' ->]. eexists; reflexivity.
Qed.

Lemma falsy_false (x : option json) :
  falsy x = false -> exists v, x = Some v /\ truthy v = true.
Proof.
  destruct x as [v|]; [|discriminate]. simpl. intros H.
  apply negb_false_iff in H. eauto.
Qed.

Lemma check_complete (result : json) :
  falsy (field result "srs") || falsy (field result "frd")
    || falsy (field result "brd")
    || negb (isArray (field result "umlDiagrams")) = false ->
  exists props diagrams, result = JObject props /\ complete props diagrams.
Proof.
  intros H. repeat (apply orb_false_iff in H as [H ?]).
  destruct result as [| | | | |props]; try discriminate.
  exists props. unfold field in *. simpl in *.
  destruct (lookup "umlDiagrams" props) as [[| | | |ds|]|] eqn:L;
    try discriminate.
  exists ds. repeat split; auto using falsy_false.
Qed.

(** X12.  A document that the route sends with status 200 is an object
    with truthy [srs], [frd] and [brd] and an array [umlDiagrams] in which
    every diagram is an object with a truthy [content]. *)
Theorem sent_documents_are_complete (requirements : option json)
    (completion : outcome string) (body : json) :
  generateDocuments JSON_parse JSON_stringify stackOf requirements completion
    = Response 200 body ->
  exists props diagrams,
    body = JObject props /\ complete props diagrams /\ Forall drawn diagrams.
Proof.
  unfold generateDocuments.
  destruct (falsy requirements); [discriminate|].
  destruct (fst (getGroqCompletion _ _ completion)) as [text|];
    [|discriminate].
  destruct (processDocuments JSON_parse text) as [result|] eqn:E;
    [|discriminate].
  intros H. injection H as <-. unfold processDocuments in E.
  destruct (JSON_parse text) as [r0|]; [|discriminate]. simpl in E.
  destruct (prop r0 "umlDiagrams") as [u|] eqn:Eu; [|discriminate].
  simpl in E.
  destruct r0 as [| | | | |props0]; simpl in Eu; try discriminate;
    try (injection Eu as <-; simpl in E; discriminate).
  injection Eu as <-.
  assert (Bad : forall x : option json,
             lookup "umlDiagrams" props0 = x -> isArray x = false ->
             (if falsy (field (JObject props0) "srs")
                 || falsy (field (JObject props0) "frd")
                 || falsy (field (JObject props0) "brd")
                 || negb (isArray (field (JObject props0) "umlDiagrams"))
              then inr "Invalid response structure from AI"
              else inl (JObject props0)) = inl result -> False).
  { intros x L A H. unfold field in H. simpl in H. rewrite L, A in H.
    simpl in H. rewrite !orb_true_r in H. discriminate. }
  destruct (lookup "umlDiagrams" props0) as [u|] eqn:L;
    [|exfalso; now apply (Bad None)].
  destruct u as [| | | |ds|];
    try (exfalso; simpl in E; eapply Bad; [reflexivity | reflexivity | exact E]).
  simpl in E. destruct (mapDiagrams ds) as [ds'|] eqn:M; [|discriminate].
  simpl in E.
  destruct (_ || _) eqn:C in E; [discriminate|]. injection E as <-.
  apply check_complete in C as (props & diagrams & Er & Cm).
  injection Er as <-.
  exists (obj_set "umlDiagrams" (JArray ds') props0), diagrams.
  split; [reflexivity|]. split; [exact Cm|].
  destruct Cm as (_ & _ & _ & S4). rewrite lookup_obj_set in S4.
  injection S4 as <-. now apply (mapDiagrams_drawn ds).
Qed.

(** X13.  A complete document whose diagrams all have a content goes
    through the route untouched. *)
Theorem complete_documents_pass_unchanged (requirements : option json)
    (completion : outcome string) (text : string)
    (props : list (string * json)) (diagrams : list json) :
  falsy requirements = false ->
  fst (getGroqCompletion JSON_parse JSON_stringify completion) = inl text ->
  JSON_parse text = inl (JObject props) ->
  complete props diagrams -> Forall drawn diagrams ->
  generateDocuments JSON_parse JSON_stringify stackOf requirements completion
    = Response 200 (JObject props).
Proof.
  intros Hr Hc Hp ((srs & L1 & T1) & (frd & L2 & T2) & (brd & L3 & T3) & L4) Hd.
  unfold generateDocuments, processDocuments. rewrite Hr, Hc, Hp. simpl.
  rewrite L4. simpl. rewrite (mapDiagrams_fixed Hd). simpl.
  rewrite (obj_set_present _ _ L4). unfold field. simpl.
  rewrite L1, L2, L3, L4. simpl. now rewrite T1, T2, T3.
Qed.

(** X14.  A diagram object without content whose description and type are
    strings gets the generated code as its content and keeps its other
    properties. *)
Theorem missing_content_is_generated (props : list (string * json))
    (description type : string) :
  falsy (lookup "content" props) = true ->
  lookup "description" props = Some (JString description) ->
  lookup "type" props = Some (JString type) ->
  exists props',
    processDiagram (JObject props) = inl (JObject props')
    /\ lookup "content" props'
       = Some (JString (generatePlantUMLCode description type))
    /\ forall k, k <> "content" -> lookup k props' = lookup k props.
Proof.
  intros Hc Hd Ht.
  exists (obj_set "content" (JString (generatePlantUMLCode description type))
            props).
  split; [|split].
  - unfold processDiagram, callGenerate, field. simpl.
    rewrite Hc, Hd, Ht. reflexivity.
  - apply lookup_obj_set.
  - intros k Hk. now apply lookup_obj_set_other.
Qed.

(** X15.  One diagram without content whose type is not a string makes the
    route answer 500 for the whole document. *)
Theorem untyped_diagram_fails_request (requirements : option json)
    (completion : outcome string) (text : string)
    (props : list (string * json)) (diagrams : list json) (d : json) :
  fst (getGroqCompletion JSON_parse JSON_stringify completion) = inl text ->
  JSON_parse text = inl (JObject props) ->
  lookup "umlDiagrams" props = Some (JArray diagrams) ->
  In d diagrams ->
  falsy (field d "content") = true ->
  (forall t, field d "type" <> Some (JString t)) ->
  falsy requirements = false ->
  exists details,
    generateDocuments JSON_parse JSON_stringify stackOf requirements completion
    = parseFailure details text.
Proof.
  intros Hc Hp Hl Hin Hf Ht Hr.
  assert (E : exists e, processDiagram d = inr e).
  { unfold processDiagram. unfold field in Hf, Ht.
    destruct (prop d "content") as [content|e]; [|eexists; reflexivity].
    simpl. rewrite Hf. unfold callGenerate, field.
    destruct (prop d "type") as [[[| | | x | |]|]|]; simpl;
      try (eexists; reflexivity).
    exfalso. now apply (Ht x). }
  destruct E as [e E].
  destruct (mapDiagrams_fails _ _ Hin E) as [e' M].
  unfold generateDocuments, processDocuments.
  rewrite Hr, Hc, Hp. simpl. rewrite Hl. simpl. rewrite M. simpl. eauto.
Qed.

Lemma checkAssignment_ok (a : json) :
  checkAssignment JSON_stringify a = inl tt <-> assigned a.
Proof.
  unfold checkAssignment, assigned, field.
  destruct (prop a "assignedTo") as [who|e] eqn:E.
  - simpl. destruct (falsy who) eqn:F.
    + split; [discriminate|]. intros (w & m & e & -> & T & _).
      simpl in F. rewrite T in F. discriminate.
    + apply falsy_false in F as (w & -> & T).
      destruct a; simpl in E; try discriminate; simpl;
        try (split; [discriminate | intros (? & ? & ? & A & _); discriminate]).
      destruct (lookup "confidence" props) as [[]|];
        (split; [intros H; try discriminate; eauto 6
                |intros (? & ? & ? & _ & _ & A); try discriminate; reflexivity]).
  - simpl. split; [discriminate|]. intros (? & ? & ? & A & _). discriminate.
Qed.

Lemma forEachAssignment_ok (items : list json) :
  forEachAssignment JSON_stringify items = inl tt <-> Forall assigned items.
Proof.
  induction items as [|a items IH]; simpl.
  - split; [constructor | reflexivity].
  - destruct (checkAssignment JSON_stringify a) as [[]|e] eqn:E; simpl.
    + rewrite IH. apply checkAssignment_ok in E. split.
      * intros H. now constructor.
      * intros H. now inversion H.
    + split; [discriminate|]. intros H. inversion H as [|? ? A _].
      apply checkAssignment_ok in A. congruence.
Qed.

(** X16.  The assignment route answers 200 only for a request with
    non-empty arrays of tasks and team members, and then with an array in
    which every assignment has a truthy [assignedTo] and a numeric
    [confidence]. *)
Theorem sent_assignments_are_checked (tasks teamMembers : option json)
    (completion : outcome string) (body : json) :
  assignTasks JSON_parse JSON_stringify tasks teamMembers completion
    = Response 200 body ->
  (exists t ts, tasks = Some (JArray (t :: ts)))
  /\ (exists m ms, teamMembers = Some (JArray (m :: ms)))
  /\ exists items, body = JArray items /\ Forall assigned items.
Proof.
  unfold assignTasks.
  destruct (notFilledArray tasks) eqn:T; [discriminate|].
  destruct (notFilledArray teamMembers) eqn:M; [discriminate|].
  destruct (fst (getGroqCompletion _ _ completion)) as [text|];
    [|discriminate].
  destruct (checkedAssignments JSON_parse JSON_stringify text) as [r|] eqn:E;
    [|discriminate].
  intros H. injection H as <-.
  split; [|split].
  - destruct tasks as [[| | | |[|t ts]|]|]; try discriminate. eauto.
  - destruct teamMembers as [[| | | |[|m ms]|]|]; try discriminate. eauto.
  - unfold checkedAssignments in E.
    destruct (JSON_parse text) as [result|]; [|discriminate]. simpl in E.
    assert (D : forall a,
               match a with
               | Some (JArray items) =>
                   bind (forEachAssignment JSON_stringify items)
                        (fun _ => inl (JArray items))
               | None =>
                   inr "Cannot read properties of undefined (reading 'forEach')"
               | Some JNull =>
                   inr "Cannot read properties of null (reading 'forEach')"
               | Some _ => inr "assignments.forEach is not a function"
               end = inl r ->
               exists items, r = JArray items /\ Forall assigned items).
    { intros [[| | | |items|]|] H; try discriminate.
      destruct (forEachAssignment JSON_stringify items) as [[]|] eqn:F;
        [|discriminate].
      simpl in H. injection H as <-. exists items.
      split; [reflexivity | now apply forEachAssignment_ok]. }
    destruct result as [| | | |items|props];
      [discriminate E | exact (D None E) | exact (D None E)
      | exact (D None E) | exact (D (Some (JArray items)) E)
      | exact (D (lookup "assignments" props) E)].
Qed.

(** X17.  Checked assignments are sent as the model gave them, whether the
    model answered with the array itself or with an object that holds it
    under [assignments]. *)
Theorem checked_assignments_pass_unchanged (tasks teamMembers : option json)
    (completion : outcome string) (text : string) (result : json)
    (items : list json) :
  notFilledArray tasks = false -> notFilledArray teamMembers = false ->
  fst (getGroqCompletion JSON_parse JSON_stringify completion) = inl text ->
  JSON_parse text = inl result ->
  result = JArray items
  \/ (exists props, result = JObject props
                    /\ lookup "assignments" props = Some (JArray items)) ->
  Forall assigned items ->
  assignTasks JSON_parse JSON_stringify tasks teamMembers completion
    = Response 200 (JArray items).
Proof.
  intros Ht Hm Hc Hp Hr Ha. apply forEachAssignment_ok in Ha.
  unfold assignTasks, checkedAssignments. rewrite Ht, Hm, Hc, Hp. simpl.
  destruct Hr as [->|(props & -> & L)]; simpl.
  - now rewrite Ha.
  - rewrite L. now rewrite Ha.
Qed.

End RouteMore.

Section RouteMoreExamples.
Import JSStr Json Api ApiRoutes.

Lemma sent_documents_are_complete_witness :
  let r := generateDocuments parse stringify sample_stack
             (Some (JString "a shop"))
             (inl (q "{'srs':'a','frd':'b','brd':'c','umlDiagrams':[{'type':'class','description':'T\nclass A'}]}")) in
  status r = 200
  /\ exists props diagrams,
       body r = JObject props /\ complete props diagrams
       /\ Forall drawn diagrams.
Proof.
  intros r. split; [vm_compute; reflexivity|].
  apply (@sent_documents_are_complete parse stringify sample_stack
           (Some (JString "a shop"))
           (inl (q "{'srs':'a','frd':'b','brd':'c','umlDiagrams':[{'type':'class','description':'T\nclass A'}]}"))
           (body r)).
  vm_compute. reflexivity.
Defined.

Lemma complete_documents_pass_unchanged_witness :
  let props := [("srs", JString "a"); ("frd", JString "b");
                ("brd", JString "c");
                ("umlDiagrams",
                 JArray [JObject [("content", JString "A -> B")]])] in
  generateDocuments parse stringify sample_stack (Some (JString "a shop"))
    (inl (q "{'srs':'a','frd':'b','brd':'c','umlDiagrams':[{'content':'A -> B'}]}"))
  = Response 200 (JObject props).
Proof.
  intros props.
  apply (@complete_documents_pass_unchanged parse stringify sample_stack
           (Some (JString "a shop")) _
           (q "{'srs':'a','frd':'b','brd':'c','umlDiagrams':[{'content':'A -> B'}]}")
           props [JObject [("content", JString "A -> B")]]).
  - reflexivity.
  - vm_compute. reflexivity.
  - vm_compute. reflexivity.
  - repeat split; eexists; split; reflexivity.
  - constructor; [|constructor].
    exists [("content", JString "A -> B")], (JString "A -> B").
    repeat split.
Defined.

Lemma missing_content_is_generated_witness :
  exists props',
    processDiagram
      (JObject [("name", JString "Flow"); ("type", JString "Activity");
                ("description", JString "Order")])
    = inl (JObject props')
    /\ lookup "content" props'
       = Some (JString (generatePlantUMLCode "Order" "Activity"))
    /\ lookup "name" props' = Some (JString "Flow").
Proof.
  destruct (@missing_content_is_generated
              [("name", JString "Flow"); ("type", JString "Activity");
               ("description", JString "Order")] "Order" "Activity"
              eq_refl eq_refl eq_refl) as (props' & E & C & K).
  exists props'. split; [exact E|]. split; [exact C|].
  rewrite K by discriminate. reflexivity.
Defined.

Lemma untyped_diagram_fails_request_witness :
  status (generateDocuments parse stringify sample_stack
            (Some (JString "a shop"))
            (inl (q "{'srs':'a','frd':'b','brd':'c','umlDiagrams':[{'content':'A -> B'},{'name':'n'}]}")))
  = 500.
Proof.
  destruct (@untyped_diagram_fails_request parse stringify sample_stack
              (Some (JString "a shop"))
              (inl (q "{'srs':'a','frd':'b','brd':'c','umlDiagrams':[{'content':'A -> B'},{'name':'n'}]}"))
              (q "{'srs':'a','frd':'b','brd':'c','umlDiagrams':[{'content':'A -> B'},{'name':'n'}]}")
              [("srs", JString "a"); ("frd", JString "b"); ("brd", JString "c");
               ("umlDiagrams",
                JArray [JObject [("content", JString "A -> B")];
                        JObject [("name", JString "n")]])]
              [JObject [("content", JString "A -> B")];
               JObject [("name", JString "n")]]
              (JObject [("name", JString "n")]))
    as [details E].
  - vm_compute. reflexivity.
  - vm_compute. reflexivity.
  - reflexivity.
  - right. now left.
  - reflexivity.
  - intros t. discriminate.
  - reflexivity.
  - rewrite E. reflexivity.
Defined.

Lemma sent_assignments_are_checked_witness :
  let r := assignTasks parse stringify (Some (JArray [JString "t1"]))
             (Some (JArray [JString "Ann"]))
             (inl (q "[{'id':'t1','assignedTo':'Ann','confidence':90}]")) in
  status r = 200
  /\ exists items, body r = JArray items /\ Forall assigned items.
Proof.
  intros r. split; [vm_compute; reflexivity|].
  apply (@sent_assignments_are_checked parse stringify
           (Some (JArray [JString "t1"])) (Some (JArray [JString "Ann"]))
           (inl (q "[{'id':'t1','assignedTo':'Ann','confidence':90}]"))
           (body r)).
  vm_compute. reflexivity.
Defined.

Lemma checked_assignments_pass_unchanged_witness :
  let a := JObject [("id", JString "t1"); ("assignedTo", JString "Ann");
                    ("confidence", JNumber 9 1)] in
  assignTasks parse stringify (Some (JArray [JString "t1"]))
    (Some (JArray [JString "Ann"]))
    (inl (q "{'assignments':[{'id':'t1','assignedTo':'Ann','confidence':90}]}"))
  = Response 200 (JArray [a]).
Proof.
  intros a.
  apply (@checked_assignments_pass_unchanged parse stringify
           (Some (JArray [JString "t1"])) (Some (JArray [JString "Ann"])) _
           (q "{'assignments':[{'id':'t1','assignedTo':'Ann','confidence':90}]}")
           (JObject [("assignments", JArray [a])]) [a]).
  - reflexivity.
  - reflexivity.
  - vm_compute. reflexivity.
  - vm_compute. reflexivity.
  - right. exists [("assignments", JArray [a])]. split; reflexivity.
  - constructor; [|constructor].
    exists (JString "Ann"), 9%Z, 1%Z. repeat split.
Defined.

End RouteMoreExamples.

(** ** The repair pass, stage by stage *)

Section RepairMore.
Import JSStr Regex Json Api.

Lemma collapsed_no_nl (s : string) :
  collapsed s = true -> indexOf nl s = None.
Proof.
  induction s as [|a t IH]; [reflexivity|].
  rewrite collapsed_cons. intros H. apply andb_true_iff in H as [H1 H2].
  simpl. rewrite (IH H2).
  destruct (Ascii.eqb_spec a nl) as [->|]; [|reflexivity].
  simpl in H1. discriminate.
Qed.

(** X18.  The repaired text has no white space but single blanks, hence no
    line feed, and neither begins nor ends with white space. *)
Theorem repaired_text_is_collapsed (str : string) :
  collapsed (repairJSON str) = true
  /\ indexOf nl (repairJSON str) = None
  /\ trim (repairJSON str) = repairJSON str.
Proof.
  assert (C : collapsed (repairJSON str) = true).
  { unfold repairJSON, clean_whitespace, trim.
    apply collapsed_trimEnd, collapsed_trimStart, collapse_collapsed. }
  split; [exact C|]. split; [now apply collapsed_no_nl|].
  unfold repairJSON, clean_whitespace. apply trim_idempotent.
Qed.

Lemma indexOf_app_first (c : ascii) (pre rest : string) :
  indexOf c pre = None ->
  indexOf c (pre ++ String c rest) = Some (String.length pre).
Proof.
  induction pre as [|a pre IH]; simpl.
  - now rewrite Ascii.eqb_refl.
  - destruct (Ascii.eqb a c); [discriminate|].
    destruct (indexOf c pre); [discriminate|]. intros _.
    now rewrite IH.
Qed.

(** X19.  The truncation drops what stands before the first opening brace
    and after the last closing brace. *)
Theorem slice_braces_drops_prose (pre body post : string) :
  indexOf "{" pre = None ->
  lastIndexOf "}" post = None ->
  slice_braces (pre ++ String "{" (body ++ String "}" post))
  = String "{" (body ++ "}").
Proof.
  intros Hpre Hpost. unfold slice_braces.
  rewrite indexOf_app_first by exact Hpre.
  replace (pre ++ String "{" (body ++ String "}" post))
    with ((pre ++ String "{" body) ++ String "}" post)
    by (rewrite append_assoc; reflexivity).
  rewrite lastIndexOf_app. simpl lastIndexOf. rewrite Hpost. simpl.
  unfold slice. rewrite length_append. simpl String.length.
  replace (String.length pre + S (String.length body) + 0 + 1
           - String.length pre)
    with (String.length (String "{" (body ++ "}")))
    by (simpl; rewrite length_append; simpl; lia).
  rewrite append_assoc. rewrite substring_skip.
  replace (String "{" body ++ String "}" post)
    with (String "{" (body ++ "}") ++ post)
    by (simpl; rewrite append_assoc; reflexivity).
  apply substring_take.
Qed.

Lemma slice_braces_drops_prose_witness :
  slice_braces ("Here is the JSON: " ++ String "{" (q "'a':1" ++ String "}" " Done."))
  = String "{" (q "'a':1" ++ "}").
Proof.
  apply (@slice_braces_drops_prose "Here is the JSON: " (q "'a':1") " Done.");
    reflexivity.
Defined.

(** *** Scanning over text that cannot start a match *)

Lemma starts_run (c : ascii) (r : regex) :
  starts c r = true ->
  forall s cs k, head_is c s = false -> run r s cs k = None.
Proof.
  induction r as [a|items|items|r1 IH1 r2 IH2|r1 IH1 r2 IH2|r1 IH1|r1 IH1
                  |r1 IH1|n r1 IH1|]; simpl; intros H s cs k Hs;
    try discriminate; auto.
  destruct s as [|b t]; [reflexivity|]. simpl in Hs.
  apply Ascii.eqb_eq in H. subst a. now rewrite Hs.
Qed.

Lemma starts_exec (c : ascii) (r : regex) (s : string) :
  starts c r = true -> head_is c s = false -> exec_here r s = None.
Proof.
  intros H Hs. unfold exec_here. now rewrite (@starts_run c r H).
Qed.

Lemma replace_go_passes (c : ascii) (r : regex) (tpl : list titem)
    (pre rest : string) :
  starts c r = true -> indexOf c pre = None ->
  replace_go r tpl (pre ++ rest) 0 = pre ++ replace_go r tpl rest 0.
Proof.
  intros H. induction pre as [|a pre IH]; intros Hp; [reflexivity|].
  simpl in Hp. destruct (Ascii.eqb a c) eqn:E; [discriminate|].
  destruct (indexOf c pre); [discriminate|].
  change (String a pre ++ rest) with (String a (pre ++ rest)).
  simpl replace_go.
  rewrite (@starts_exec c r (String a (pre ++ rest)) H) by (simpl; exact E).
  now rewrite IH.
Qed.

Lemma exec_here_prefix (r : regex) (pre rest : string) (cs : caps) :
  run r (pre ++ rest) [] k_done = Some (rest, cs) ->
  exec_here r (pre ++ rest) = Some (String.length pre, cs).
Proof.
  intros H. unfold exec_here. rewrite H, length_append.
  f_equal. f_equal. lia.
Qed.

Lemma replace_go_match (r : regex) (tpl : list titem) (a : ascii)
    (pre rest : string) (cs : caps) :
  run r (String a pre ++ rest) [] k_done = Some (rest, cs) ->
  replace_go r tpl (String a pre ++ rest) 0
  = subst tpl cs ++ replace_go r tpl rest 0.
Proof.
  intros H. change (String a pre ++ rest) with (String a (pre ++ rest)).
  simpl replace_go.
  change (String a (pre ++ rest)) with (String a pre ++ rest).
  rewrite (@exec_here_prefix r (String a pre) rest cs H). simpl String.length.
  cbv iota. now rewrite replace_go_skip.
Qed.

(** X20.  A markdown fence around a text without back quotes is taken
    away, with or without the word [json] after the opening fence; the
    line feed before the closing fence stays. *)
Theorem strip_fences_unwraps (body : string) :
  indexOf "`" body = None ->
  strip_fences ("```json" ++ String nl (body ++ String nl "```"))
  = body ++ String nl ""
  /\ strip_fences ("```" ++ String nl (body ++ String nl "```"))
     = body ++ String nl "".
Proof.
  intros Hb.
  assert (T1 : replace_all re_fence_json [] (body ++ String nl "```")
               = body ++ String nl "```").
  { unfold replace_all.
    rewrite (@replace_go_passes "`" re_fence_json [] body (String nl "```")
               eq_refl Hb).
    reflexivity. }
  assert (T2 : replace_all re_fence [] (body ++ String nl "```")
               = body ++ String nl "").
  { unfold replace_all.
    rewrite (@replace_go_passes "`" re_fence [] body (String nl "```")
               eq_refl Hb).
    reflexivity. }
  unfold strip_fences. split.
  - replace (replace_all re_fence_json []
               ("```json" ++ String nl (body ++ String nl "```")))
      with (replace_all re_fence_json [] (body ++ String nl "```")).
    + now rewrite T1, T2.
    + unfold replace_all. symmetry.
      exact (@replace_go_match re_fence_json [] "`" ("``json" ++ String nl "")
               (body ++ String nl "```") [] eq_refl).
  - replace (replace_all re_fence_json []
               ("```" ++ String nl (body ++ String nl "```")))
      with ("```" ++ String nl (body ++ String nl "```")).
    + rewrite <- T2. unfold replace_all.
      exact (@replace_go_match re_fence [] "`" ("``" ++ String nl "")
               (body ++ String nl "```") [] eq_refl).
    + symmetry. unfold replace_all in *.
      change (replace_go re_fence_json []
                ("```" ++ String nl (body ++ String nl "```")) 0)
        with ("```" ++ String nl
                (replace_go re_fence_json [] (body ++ String nl "```") 0)).
      now rewrite T1.
Qed.

Lemma strip_fences_unwraps_witness :
  strip_fences ("```json" ++ String nl (q "{'a':1}" ++ String nl "```"))
  = q "{'a':1}" ++ String nl "".
Proof.
  apply (proj1 (@strip_fences_unwraps (q "{'a':1}") eq_refl)).
Defined.

Lemma star_not_gt (fuel : nat) (name rest : string) (cs : caps) :
  String.length name <= fuel -> indexOf ">" name = None ->
  star_loop (run (NCls [CChar ">"]))
    (fun s c => run (Lit ">") s c k_done) fuel (name ++ String ">" rest) cs
  = Some (rest, cs).
Proof.
  revert name; induction fuel as [|f IH]; intros name Hl Hn.
  - destruct name; [reflexivity | simpl in Hl; lia].
  - destruct name as [|a name]; [reflexivity|].
    simpl in Hn. destruct (Ascii.eqb a ">") eqn:E; [discriminate|].
    destruct (indexOf ">" name) eqn:En; [discriminate|].
    change (String a name ++ String ">" rest)
      with (String a (name ++ String ">" rest)).
    simpl star_loop. unfold in_class. simpl existsb. rewrite E. simpl orb.
    cbv iota.
    destruct (String.length (name ++ String ">" rest)
              <? S (String.length (name ++ String ">" rest))) eqn:L;
      [|apply Nat.ltb_ge in L; lia].
    rewrite IH; [reflexivity | simpl in Hl; lia | exact En].
Qed.

(** X21.  A tag is deleted, what it encloses is not: after a text without
    [<], a tag with a non-empty name without [>] is removed and the scan
    goes on behind it. *)
Theorem strip_tags_removes_tag (pre name rest : string) :
  indexOf "<" pre = None ->
  name <> "" -> indexOf ">" name = None ->
  strip_tags (pre ++ String "<" (name ++ String ">" rest))
  = pre ++ strip_tags rest.
Proof.
  intros Hpre Hne Hn. unfold strip_tags, replace_all.
  rewrite (@replace_go_passes "<" re_tag [] pre
             (String "<" (name ++ String ">" rest)) eq_refl Hpre).
  f_equal.
  replace (String "<" (name ++ String ">" rest))
    with (String "<" (name ++ ">") ++ rest)
    by (simpl; rewrite append_assoc; reflexivity).
  apply (@replace_go_match re_tag [] "<" (name ++ ">") rest []).
  simpl. rewrite append_assoc. simpl.
  destruct name as [|a name]; [contradiction|].
  simpl in Hn. destruct (Ascii.eqb a ">") eqn:E; [discriminate|].
  destruct (indexOf ">" name) eqn:En; [discriminate|].
  simpl. unfold in_class. simpl existsb. rewrite E. simpl orb. cbv iota.
  apply star_not_gt; [rewrite length_append; lia | exact En].
Qed.

Lemma strip_tags_removes_tag_witness :
  strip_tags ("Sure. " ++ String "<" ("think" ++ String ">" "plan"))
  = "Sure. " ++ strip_tags "plan".
Proof.
  apply (@strip_tags_removes_tag "Sure. " "think" "plan");
    [reflexivity | discriminate | reflexivity].
Defined.

End RepairMore.
